(** * mcp_openapi_proxy.server_fastmcp: listing and dispatch of OpenAPI tools

    A shallow embedding of [list_functions] and [call_function] of
    [src/mcp_openapi_proxy/server_fastmcp.py], and the properties of the
    design document that concern them.

    Conventions of the embedding.
    - A Python [str] is a [string]; [str.lower] and [str.upper] act on the
      ASCII letters (the method filter only accepts names whose letters are
      ASCII).
    - The specification document is typed as the design document types it:
      a mapping from paths to path items, a path item a mapping from method
      names to operations, an operation with an optional list of parameter
      declarations.  Both mappings are association lists, because the code
      enumerates them in document order.  Documents of another shape (a path
      item or an operation that is not a mapping) are outside the model.
    - Caller parameters are a flat mapping from names to scalar values
      (none, booleans, integers, strings), as the design document has them;
      the order of its entries is never observed, so it is a [gmap].
    - [json.dumps] is not modelled: a function that returns
      [json.dumps (x)] returns [x] here, under a constructor that says which
      of the three payload shapes it is.
    - The helpers imported from [mcp_openapi_proxy.utils] and the ambient
      process configuration they read are the fields of [Env]. *)

From Stdlib Require Import ZArith Ascii String List Bool Lia DecimalString.
From stdpp Require Import base option list strings gmap fin_maps.

Local Open Scope string_scope.
Local Open Scope list_scope.

(** ** Python built-ins used by the module *)

Module Py.

Definition lower_ascii (c : ascii) : ascii :=
  let n := nat_of_ascii c in
  if Nat.leb 65 n && Nat.leb n 90 then ascii_of_nat (n + 32) else c.

Definition upper_ascii (c : ascii) : ascii :=
  let n := nat_of_ascii c in
  if Nat.leb 97 n && Nat.leb n 122 then ascii_of_nat (n - 32) else c.

Fixpoint map_chars (f : ascii -> ascii) (s : string) : string :=
  match s with
  | EmptyString => EmptyString
  | String c s' => String (f c) (map_chars f s')
  end.

(** [s.lower()] and [s.upper()]. *)
Definition lower (s : string) : string := map_chars lower_ascii s.
Definition upper (s : string) : string := map_chars upper_ascii s.

(** [s.lstrip(c)] for a one-character argument. *)
Fixpoint lstrip (c : ascii) (s : string) : string :=
  match s with
  | EmptyString => EmptyString
  | String a s' => if Ascii.eqb a c then lstrip c s' else s
  end.

(** [s.rstrip(c)] for a one-character argument. *)
Fixpoint rstrip (c : ascii) (s : string) : string :=
  match s with
  | EmptyString => EmptyString
  | String a s' =>
      match rstrip c s' with
      | EmptyString => if Ascii.eqb a c then EmptyString else String a EmptyString
      | r => String a r
      end
  end.

(** [s.replace(old, new)]: every occurrence of [old], leftmost first and
    without overlap.  [skip] counts the characters of an occurrence that
    was just replaced and that are still to be passed over. *)
Fixpoint replace_from (old new : string) (skip : nat) (s : string) : string :=
  match s with
  | EmptyString => EmptyString
  | String c s' =>
      match skip with
      | S k => replace_from old new k s'
      | O =>
          if String.prefix old s
          then new +:+ replace_from old new (String.length old - 1) s'
          else String c (replace_from old new O s')
      end
  end.

Fixpoint between_chars (new : string) (s : string) : string :=
  match s with
  | EmptyString => EmptyString
  | String c s' => String c (new +:+ between_chars new s')
  end.

Definition replace (old new s : string) : string :=
  match old with
  | EmptyString => new +:+ between_chars new s
  | _ => replace_from old new O s
  end.

(** Truthiness of a [str]. *)
Definition truthy_str (s : string) : bool :=
  match s with EmptyString => false | _ => true end.

(** [str(z)] for an [int]. *)
Definition str_int (z : Z) : string := NilZero.string_of_int (Z.to_int z).

Definition contains_char (c : ascii) (s : string) : bool :=
  existsb (Ascii.eqb c) (list_ascii_of_string s).

Definition squote : ascii := ascii_of_nat 39.
Definition dquote : ascii := ascii_of_nat 34.
Definition backslash : ascii := ascii_of_nat 92.

Definition hex_digit (n : nat) : ascii :=
  nth n (list_ascii_of_string "0123456789abcdef") "0"%char.

(** One character of [repr(s)] for the quote character [q].  Bytes from
    128 on are copied, as [repr] does for printable text. *)
Definition repr_char (q c : ascii) : string :=
  let n := nat_of_ascii c in
  if Ascii.eqb c q || Ascii.eqb c backslash then String backslash (String c EmptyString)
  else if Nat.eqb n 9 then String backslash "t"
  else if Nat.eqb n 10 then String backslash "n"
  else if Nat.eqb n 13 then String backslash "r"
  else if Nat.ltb n 32 || Nat.eqb n 127
       then String backslash
              (String "x" (String (hex_digit (n / 16)) (String (hex_digit (n mod 16)) EmptyString)))
  else String c EmptyString.

Fixpoint repr_chars (q : ascii) (s : string) : string :=
  match s with
  | EmptyString => EmptyString
  | String c s' => repr_char q c +:+ repr_chars q s'
  end.

(** [repr(s)] for a [str]: single quotes, unless the text has a single
    quote and no double quote. *)
Definition repr_str (s : string) : string :=
  let q := if contains_char squote s && negb (contains_char dquote s)
           then dquote else squote in
  String q (repr_chars q s +:+ String q EmptyString).

(** [str(l)] for a list of [str], as an f-string interpolates it. *)
Definition str_list (l : list string) : string :=
  "[" +:+ String.concat ", " (map repr_str l) +:+ "]".

End Py.

(** ** Data model *)

(** A value of the caller's flat parameter mapping. *)
Inductive scalar : Type :=
| SNone
| SBool (b : bool)
| SInt (z : Z)
| SStr (s : string).

(** Python truthiness. *)
Definition truthy (v : scalar) : bool :=
  match v with
  | SNone => false
  | SBool b => b
  | SInt z => negb (Z.eqb z 0)
  | SStr s => Py.truthy_str s
  end.

(** [str(v)]. *)
Definition py_str (v : scalar) : string :=
  match v with
  | SNone => "None"
  | SBool true => "True"
  | SBool false => "False"
  | SInt z => Py.str_int z
  | SStr s => s
  end.

(** An entry of an operation's ["parameters"] list.  A field read with
    [param.get] is optional. *)
Record ParamDecl : Type := mkParamDecl {
  p_name : string;
  p_in : option string;
  p_type : option string;
  p_required : option bool;
  p_description : option string
}.

(** An operation object.  The fields are the entries the module reads;
    [op_method] is the ["method"] entry, the one [call_function] writes. *)
Record Operation : Type := mkOperation {
  op_operationId : option string;
  op_summary : option string;
  op_description : option string;
  op_parameters : option (list ParamDecl);
  op_method : option string
}.

Abbreviation PathItem := (list (string * Operation)).

(** The specification document: its ["paths"] entry, absent or present, and
    the server information that [build_base_url] reads. *)
Record Spec : Type := mkSpec {
  spec_paths : option (list (string * PathItem));
  spec_servers : list string
}.

Record Property : Type := mkProperty {
  prop_type : string;
  prop_description : string
}.

(** The [input_schema] dictionary; its ["type"] is always ["object"] and its
    ["additionalProperties"] always [False]. *)
Record InputSchema : Type := mkInputSchema {
  properties : list (string * Property);
  required : list string
}.

Record ToolDescriptor : Type := mkToolDescriptor {
  td_name : string;
  td_description : string;
  td_path : string;
  td_method : string;
  td_operationId : option string;
  td_original_name : string;
  td_inputSchema : InputSchema
}.

(** The arguments of [requests.request]. *)
Record Request : Type := mkRequest {
  req_method : string;
  req_url : string;
  req_headers : list (string * string);
  req_params : option (gmap string scalar);
  req_json : option (gmap string scalar)
}.

(** The string a tool returns: [json.dumps] of a list of descriptors,
    [json.dumps] of [{"error": msg}], or the upstream response text. *)
Inductive Reply : Type :=
| ToolList (tools : list ToolDescriptor)
| ErrorObject (msg : string)
| ResponseText (text : string).

(** What one tool invocation leaves behind: the reply, the requests handed
    to [requests.request], and the document object it fetched, in the state
    the invocation left it. *)
Record Outcome : Type := mkOutcome {
  reply : Reply;
  sent : list Request;
  document : option Spec
}.

(** The process environment and the helpers of [mcp_openapi_proxy.utils].
    [http] stands for [requests.request] followed by [raise_for_status]:
    [inl] the response text, [inr] the text of the [RequestException]. *)
Record Env : Type := mkEnv {
  environ : gmap string string;
  fetch_openapi_spec : string -> option Spec;
  get_tool_prefix : option string;
  normalize_tool_name : string -> string;
  is_tool_whitelisted : string -> bool;
  handle_auth : Operation -> list (string * string);
  strip_param : option string;
  build_base_url : Spec -> option string;
  http : Request -> string + string
}.

(** ** Python dictionaries that keep their insertion order *)

Section Dict.
Context {V : Type}.

(** [k in d]. *)
Fixpoint dict_mem (k : string) (d : list (string * V)) : bool :=
  match d with
  | [] => false
  | (k', _) :: d' => if String.eqb k' k then true else dict_mem k d'
  end.

(** [d.get(k)]. *)
Fixpoint dict_get (k : string) (d : list (string * V)) : option V :=
  match d with
  | [] => None
  | (k', v) :: d' => if String.eqb k' k then Some v else dict_get k d'
  end.

(** [d[k] = v]: a key already present keeps its place, a new key goes
    last. *)
Fixpoint dict_set (k : string) (v : V) (d : list (string * V)) : list (string * V) :=
  match d with
  | [] => [(k, v)]
  | (k', v') :: d' =>
      if String.eqb k' k then (k, v) :: d' else (k', v') :: dict_set k v d'
  end.
End Dict.

(** ** What the two tools share *)

(** Lines 34 and 119:
    [os.environ.get(env_key, os.environ.get("OPENAPI_SPEC_URL"))]. *)
Definition spec_location (env : Env) (env_key : string) : option string :=
  match environ env !! env_key with
  | Some url => Some url
  | None => environ env !! "OPENAPI_SPEC_URL"
  end.

(** Lines 68 and 136:
    [method.lower() in ["get", "post", "put", "delete", "patch"]]. *)
Definition supported_methods : list string :=
  ["get"; "post"; "put"; "delete"; "patch"].

Definition method_supported (method : string) : bool :=
  existsb (String.eqb (Py.lower method)) supported_methods.

(** Lines 71 and 139: [f"{method.upper()} {path}"]. *)
Definition raw_name (method path : string) : string :=
  Py.upper method +:+ " " +:+ path.

(** Lines 72-74 and 140-142: the normalized name, behind the prefix when
    one is configured. *)
Definition tool_name (env : Env) (method path : string) : string :=
  let function_name := normalize_tool_name env (raw_name method path) in
  match get_tool_prefix env with
  | Some prefix =>
      if Py.truthy_str prefix then prefix +:+ function_name else function_name
  | None => function_name
  end.

(** ** [list_functions] *)

Definition recognised_types : list string :=
  ["string"; "integer"; "boolean"; "number"].

(** Lines 88-90. *)
Definition param_type (param : ParamDecl) : string :=
  let declared := default "string" (p_type param) in
  if existsb (String.eqb declared) recognised_types then declared else "string".

(** Line 93. *)
Definition param_description (param : ParamDecl) : string :=
  match p_description param with
  | Some text => text
  | None => default "unknown" (p_in param) +:+ " parameter " +:+ p_name param
  end.

(** [param.get("required", False)], as a condition. *)
Definition param_required (param : ParamDecl) : bool :=
  default false (p_required param).

(** Lines 87-96: the body of the loop over the declared parameters. *)
Definition add_param (input_schema : InputSchema) (param : ParamDecl) : InputSchema :=
  {| properties :=
       dict_set (p_name param)
         {| prop_type := param_type param;
            prop_description := param_description param |}
         (properties input_schema);
     required :=
       if param_required param
       then required input_schema ++ [p_name param]
       else required input_schema |}.

(** Lines 80-96. *)
Definition derive_input_schema (operation : Operation) : InputSchema :=
  fold_left add_param (default [] (op_parameters operation))
    {| properties := []; required := [] |}.

(** Line 78. *)
Definition function_description (operation : Operation) : string :=
  match op_summary operation with
  | Some text => text
  | None => default "No description provided." (op_description operation)
  end.

(** Lines 97-105: the descriptor stored for an operation. *)
Definition describe (env : Env) (path method : string) (operation : Operation)
  : ToolDescriptor :=
  {| td_name := tool_name env method path;
     td_description := function_description operation;
     td_path := path;
     td_method := Py.upper method;
     td_operationId := op_operationId operation;
     td_original_name := raw_name method path;
     td_inputSchema := derive_input_schema operation |}.

(** Lines 63-105: the body of the loop over the methods of one path. *)
Definition register_operation (env : Env) (path : string)
    (functions : list (string * ToolDescriptor)) (entry : string * Operation)
  : list (string * ToolDescriptor) :=
  let '(method, operation) := entry in
  if negb (Py.truthy_str method) then functions
  else if negb (method_supported method) then functions
  else
    let function_name := tool_name env method path in
    if dict_mem function_name functions then functions
    else dict_set function_name (describe env path method operation) functions.

(** Lines 53-105: the body of the loop over the paths. *)
Definition register_path (env : Env)
    (functions : list (string * ToolDescriptor)) (entry : string * PathItem)
  : list (string * ToolDescriptor) :=
  let '(path, path_item) := entry in
  match path_item with
  | [] => functions
  | _ =>
      if negb (is_tool_whitelisted env path) then functions
      else fold_left (register_operation env path) path_item functions
  end.

(** Lines 51-105: the [functions] dictionary after the loops. *)
Definition build_registry (env : Env) (paths : list (string * PathItem))
  : list (string * ToolDescriptor) :=
  fold_left (register_path env) paths [].

(** Lines 31-108. *)
Definition list_functions (env : Env) (env_key : string) : Outcome :=
  match spec_location env env_key with
  | None => mkOutcome (ToolList []) [] None
  | Some spec_url =>
      if negb (Py.truthy_str spec_url) then mkOutcome (ToolList []) [] None
      else
        match fetch_openapi_spec env spec_url with
        | None => mkOutcome (ToolList []) [] None
        | Some spec =>
            match default [] (spec_paths spec) with
            | [] => mkOutcome (ToolList []) [] (Some spec)
            | paths =>
                mkOutcome (ToolList (map snd (build_registry env paths))) []
                  (Some spec)
            end
        end
  end.

(** ** [call_function] *)

(** The [function_def] dictionary of lines 145-149.  Its ["operation"] entry
    is a reference to the operation object inside the document: [fd_ref] is
    the place of that object (index of the path, index of the method), and
    [fd_operation] the object as the lookup found it. *)
Record FunctionDef : Type := mkFunctionDef {
  fd_path : string;
  fd_method : string;
  fd_ref : nat * nat;
  fd_operation : Operation
}.

(** Lines 134-151: the loop over the methods of one path; [j] is the index
    of the first entry of [path_item] in the path item it comes from. *)
Fixpoint find_in_item (env : Env) (function_name path : string) (j : nat)
    (path_item : PathItem) : option (nat * string * Operation) :=
  match path_item with
  | [] => None
  | (method, operation) :: rest =>
      if negb (method_supported method)
      then find_in_item env function_name path (S j) rest
      else if String.eqb (tool_name env method path) function_name
           then Some (j, Py.upper method, operation)
           else find_in_item env function_name path (S j) rest
  end.

(** Lines 132-153: the loop over the paths, left at the first match. *)
Fixpoint find_function (env : Env) (function_name : string) (i : nat)
    (paths : list (string * PathItem)) : option FunctionDef :=
  match paths with
  | [] => None
  | (path, path_item) :: rest =>
      match find_in_item env function_name path 0 path_item with
      | Some (j, method, operation) =>
          Some {| fd_path := path; fd_method := method;
                  fd_ref := (i, j); fd_operation := operation |}
      | None => find_function env function_name (S i) rest
      end
  end.

(** [operation["method"] = method]. *)
Definition set_method (method : string) (operation : Operation) : Operation :=
  {| op_operationId := op_operationId operation;
     op_summary := op_summary operation;
     op_description := op_description operation;
     op_parameters := op_parameters operation;
     op_method := Some method |}.

(** The document after line 160: the operation object at [ref] has been
    written to, and every other object is as it was. *)
Definition store_method (ref : nat * nat) (method : string) (spec : Spec) : Spec :=
  {| spec_paths :=
       option_map
         (alter (fun entry : string * PathItem =>
                   (fst entry,
                    alter (fun slot : string * Operation =>
                             (fst slot, set_method method (snd slot)))
                      (snd ref) (snd entry)))
            (fst ref))
         (spec_paths spec);
     spec_servers := spec_servers spec |}.

(** Modelled from the spec: [utils.strip_parameters] is not among the
    sources.  The design document (Parameter Sanitizer) has it return the
    caller's mapping with the configured key removed if present, and an
    empty mapping when no parameters are passed.  [None] would be a result
    that is not a [dict]. *)
Definition strip_parameters (env : Env) (parameters : option (gmap string scalar))
  : option (gmap string scalar) :=
  let given := default ∅ parameters in
  Some (match strip_param env with
        | Some key => delete key given
        | None => given
        end).

(** Lines 181-182. *)
Definition drop_stream (parameters : gmap string scalar) : gmap string scalar :=
  match parameters !! "stream" with
  | Some value => if truthy value then delete "stream" parameters else parameters
  | None => parameters
  end.

(** [param.get("in") == "path"]. *)
Definition is_path_param (param : ParamDecl) : bool :=
  match p_in param with
  | Some location => String.eqb location "path"
  | None => false
  end.

(** Lines 183-185. *)
Definition path_params_in_openapi (operation : Operation) : list string :=
  map p_name (List.filter is_path_param (default [] (op_parameters operation))).

(** Lines 187-190. *)
Definition missing_required (operation : Operation)
    (parameters : gmap string scalar) : list string :=
  map p_name
    (List.filter
       (fun param =>
          is_path_param param && param_required param
          && negb (bool_decide (is_Some (parameters !! p_name param))))
       (default [] (op_parameters operation))).

(** Line 196: [f"{{{param_name}}}"]. *)
Definition placeholder (param_name : string) : string :=
  "{" +:+ param_name +:+ "}".

(** Lines 194-196: the loop over the declared path parameters. *)
Fixpoint substitute_path_params (names : list string) (api_url : string)
    (parameters : gmap string scalar) : string * gmap string scalar :=
  match names with
  | [] => (api_url, parameters)
  | param_name :: rest =>
      match parameters !! param_name with
      | Some value =>
          substitute_path_params rest
            (Py.replace (placeholder param_name) (py_str value) api_url)
            (delete param_name parameters)
      | None => substitute_path_params rest api_url parameters
      end
  end.

(** Lines 198-201 and 212-213: where the remaining parameters go. *)
Definition place_parameters (method api_url : string)
    (headers : list (string * string)) (parameters : gmap string scalar)
  : Request :=
  if String.eqb method "GET"
  then mkRequest method api_url headers (Some parameters) None
  else mkRequest method api_url headers None (Some parameters).

(** Lines 175-214: the request, or the message of the error object that is
    returned in its place.  [parameters] is the result of
    [strip_parameters]. *)
Definition build_request (method path base_url : string) (operation : Operation)
    (headers : list (string * string))
    (parameters : option (gmap string scalar)) : string + Request :=
  let api_url := Py.rstrip "/" base_url +:+ "/" +:+ Py.lstrip "/" path in
  match parameters with
  | Some parameters =>
      let parameters := drop_stream parameters in
      match path_params_in_openapi operation with
      | [] => inr (place_parameters method api_url headers parameters)
      | names =>
          match missing_required operation parameters with
          | [] =>
              let '(api_url, parameters) :=
                substitute_path_params names api_url parameters in
              inr (place_parameters method api_url headers parameters)
          | missing =>
              inl ("Missing required path parameters: " +:+ Py.str_list missing)
          end
      end
  | None =>
      if String.eqb method "GET"
      then inr (mkRequest method api_url headers (Some ∅) None)
      else inr (mkRequest method api_url headers None None)
  end.

(** Lines 159-220: what follows a successful lookup. *)
Definition dispatch (env : Env) (function_name : string) (spec : Spec)
    (function_def : FunctionDef) (parameters : option (gmap string scalar))
  : Outcome :=
  let method := fd_method function_def in
  let operation := set_method method (fd_operation function_def) in
  let spec := store_method (fd_ref function_def) method spec in
  let headers := handle_auth env operation in
  let parameters := strip_parameters env parameters in
  let headers :=
    if String.eqb method "GET" then headers
    else dict_set "Content-Type" "application/json" headers in
  if negb (is_tool_whitelisted env (fd_path function_def))
  then mkOutcome
         (ErrorObject ("Access to function '" +:+ function_name +:+ "' is not allowed"))
         [] (Some spec)
  else
    match build_base_url env spec with
    | None =>
        mkOutcome (ErrorObject "No base URL defined in spec or SERVER_URL_OVERRIDE")
          [] (Some spec)
    | Some base_url =>
        if negb (Py.truthy_str base_url)
        then mkOutcome
               (ErrorObject "No base URL defined in spec or SERVER_URL_OVERRIDE")
               [] (Some spec)
        else
          match build_request method (fd_path function_def) base_url operation
                  headers parameters with
          | inl message => mkOutcome (ErrorObject message) [] (Some spec)
          | inr request =>
              match http env request with
              | inl text => mkOutcome (ResponseText text) [request] (Some spec)
              | inr failure =>
                  mkOutcome (ErrorObject ("API request failed: " +:+ failure))
                    [request] (Some spec)
              end
          end
    end.

(** Lines 111-220. *)
Definition call_function (env : Env) (function_name : string)
    (parameters : option (gmap string scalar)) (env_key : string) : Outcome :=
  if negb (Py.truthy_str function_name)
  then mkOutcome (ErrorObject "function_name is required") [] None
  else
    match spec_location env env_key with
    | None => mkOutcome (ErrorObject "OPENAPI_SPEC_URL is not configured") [] None
    | Some spec_url =>
        if negb (Py.truthy_str spec_url)
        then mkOutcome (ErrorObject "OPENAPI_SPEC_URL is not configured") [] None
        else
          match fetch_openapi_spec env spec_url with
          | None =>
              mkOutcome
                (ErrorObject "Failed to fetch or parse the OpenAPI specification")
                [] None
          | Some spec =>
              match find_function env function_name 0
                      (default [] (spec_paths spec)) with
              | None =>
                  mkOutcome
                    (ErrorObject ("Function '" +:+ function_name +:+ "' not found"))
                    [] (Some spec)
              | Some function_def =>
                  dispatch env function_name spec function_def parameters
              end
          end
    end.

(** ** Notions the properties are stated with *)

(** Lines 116-153 of [call_function]: the document and the [function_def]
    that the guards and the lookup arrive at, if they do. *)
Definition resolve (env : Env) (function_name env_key : string)
  : option (Spec * FunctionDef) :=
  if negb (Py.truthy_str function_name) then None
  else
    match spec_location env env_key with
    | None => None
    | Some spec_url =>
        if negb (Py.truthy_str spec_url) then None
        else
          match fetch_openapi_spec env spec_url with
          | None => None
          | Some spec =>
              match find_function env function_name 0
                      (default [] (spec_paths spec)) with
              | None => None
              | Some function_def => Some (spec, function_def)
              end
          end
    end.

(** The document a tool works on: the one the Spec Accessor returns for the
    configured location. *)
Definition fetched (env : Env) (env_key : string) : option Spec :=
  match spec_location env env_key with
  | None => None
  | Some spec_url =>
      if negb (Py.truthy_str spec_url) then None
      else fetch_openapi_spec env spec_url
  end.

(** The enumeration of the Registry Builder as the design document words
    it: the (path, method, operation) triples whose path passes the
    whitelist and whose method is one of the five, in document order over
    the paths and declaration order over the methods. *)
Definition eligible_methods (path_item : PathItem) : PathItem :=
  List.filter
    (fun slot => Py.truthy_str (fst slot) && method_supported (fst slot))
    path_item.

Definition eligible_operations (env : Env) (paths : list (string * PathItem))
  : list (string * string * Operation) :=
  flat_map
    (fun entry =>
       if is_tool_whitelisted env (fst entry)
       then map (fun slot => (fst entry, fst slot, snd slot))
              (eligible_methods (snd entry))
       else [])
    paths.

Definition entry_name (env : Env) (e : string * string * Operation) : string :=
  tool_name env (snd (fst e)) (fst (fst e)).

Definition entry_descriptor (env : Env) (e : string * string * Operation)
  : ToolDescriptor :=
  describe env (fst (fst e)) (snd (fst e)) (snd e).

(** The operation object at a place of the document. *)
Definition operation_at (spec : Spec) (i j : nat) : option Operation :=
  match default [] (spec_paths spec) !! i with
  | Some entry => snd <$> (snd entry !! j)
  | None => None
  end.

(** The keys of the document: every path with the method names under it. *)
Definition document_keys (spec : Spec) : option (list (string * list string)) :=
  option_map (map (fun entry => (fst entry, map fst (snd entry))))
    (spec_paths spec).

(** The parameters that remain for the query string or the body, as the
    design document words them: the sanitized parameters without a truthy
    [stream] flag and without the declared path parameters. *)
Definition remaining_parameters (operation : Operation)
    (parameters : gmap string scalar) : gmap string scalar :=
  filter (fun kv => kv.1 ∉ path_params_in_openapi operation)
    (drop_stream parameters).

(** The URL before path substitution (line 176). *)
Definition url_template (base_url path : string) : string :=
  Py.rstrip "/" base_url +:+ "/" +:+ Py.lstrip "/" path.

(** The headers of lines 161-164. *)
Definition dispatch_headers (env : Env) (function_def : FunctionDef)
  : list (string * string) :=
  let headers :=
    handle_auth env (set_method (fd_method function_def) (fd_operation function_def)) in
  if String.eqb (fd_method function_def) "GET" then headers
  else dict_set "Content-Type" "application/json" headers.

(** The schema entry of one declaration (lines 91-94). *)
Definition property_of (param : ParamDecl) : Property :=
  {| prop_type := param_type param; prop_description := param_description param |}.

(** The step of the Registry Builder on one enumerated operation, as the
    design document words it: an operation whose name is already used is
    dropped, any other is added after those before it. *)
Definition add_entry (env : Env) (functions : list (string * ToolDescriptor))
    (e : string * string * Operation) : list (string * ToolDescriptor) :=
  if dict_mem (entry_name env e) functions then functions
  else functions ++ [(entry_name env e, entry_descriptor env e)].

(** ** A concrete environment *)

(** Modelled from the spec: [utils.normalize_tool_name] is not among the
    sources.  The design document (Tool Name Normalizer) has it collapse
    path separators and parameter braces into name-safe separators; this one
    lower-cases the letters and turns the space, the slash and the braces
    into underscores. *)
Definition sample_normalize (raw : string) : string :=
  Py.map_chars
    (fun c =>
       if existsb (Ascii.eqb c) (list_ascii_of_string " /{}")
       then "_"%char else Py.lower_ascii c)
    raw.

(** Modelled from the spec: [utils.is_tool_whitelisted] is not among the
    sources.  The design document (Whitelist Filter) lets every path pass
    when no whitelist is configured, and otherwise the paths that match an
    entry; this one matches by prefix. *)
Definition sample_whitelisted (whitelist : option (list string)) (path : string)
  : bool :=
  match whitelist with
  | None => true
  | Some entries => existsb (fun entry => String.prefix entry path) entries
  end.

Definition sample_env (whitelist : option (list string))
    (paths : option (list (string * PathItem))) : Env :=
  {| environ := {[ "OPENAPI_SPEC_URL" := "http://spec.test/openapi.json" ]};
     fetch_openapi_spec := fun _ =>
       Some {| spec_paths := paths; spec_servers := ["http://api.test/v1/"] |};
     get_tool_prefix := None;
     normalize_tool_name := sample_normalize;
     is_tool_whitelisted := sample_whitelisted whitelist;
     handle_auth := fun _ => [];
     strip_param := None;
     build_base_url := fun spec => head (spec_servers spec);
     http := fun request => inl ("response to " +:+ req_url request) |}.

Definition plain_operation (parameters : option (list ParamDecl)) : Operation :=
  {| op_operationId := None; op_summary := None; op_description := None;
     op_parameters := parameters; op_method := None |}.

Definition path_parameter (name : string) (required : option bool) : ParamDecl :=
  {| p_name := name; p_in := Some "path"; p_type := Some "string";
     p_required := required; p_description := None |}.

(** Two paths whose GET operations normalize to the same name. *)
Definition colliding_paths : list (string * PathItem) :=
  [ ("/a/b", [("get", plain_operation None)]);
    ("/a_b", [("get", plain_operation None)]) ].

(** The same two paths, the other way round. *)
Definition colliding_paths_reversed : list (string * PathItem) :=
  [ ("/a_b", [("get", plain_operation None)]);
    ("/a/b", [("get", plain_operation None)]) ].

(** The example of the design document: [GET /items/{id}], [id] required. *)
Definition items_paths : list (string * PathItem) :=
  [ ("/items/{id}",
     [("get", plain_operation (Some [path_parameter "id" (Some true)]))]);
    ("/items",
     [("post", plain_operation None)]) ].

(** A path parameter that is called [stream]. *)
Definition feeds_paths : list (string * PathItem) :=
  [ ("/feeds/{stream}",
     [("get", plain_operation (Some [path_parameter "stream" None]))]) ].

(** ** [run_simple_server] *)

(** How [run_simple_server] ends: with [sys.exit(status)], or with the
    return of [mcp.run]. *)
Inductive Ending : Type :=
| Exited (status : nat)
| Returned.

(** What a start leaves behind: how it ended, the outcome of the preloading
    call of [list_functions] when there was one, and whether [mcp.run] was
    called. *)
Record Startup : Type := mkStartup {
  ending : Ending;
  preloaded : option Outcome;
  transport_run : bool
}.

(** Lines 222-242.  [mcp_run] stands for [mcp.run(transport="stdio")]:
    [None] when it returns, [Some e] when it raises the exception [e]. *)
Definition run_simple_server (env : Env) (mcp_run : option string) : Startup :=
  match environ env !! "OPENAPI_SPEC_URL" with
  | None => mkStartup (Exited 1) None false
  | Some spec_url =>
      if negb (Py.truthy_str spec_url) then mkStartup (Exited 1) None false
      else
        match fetch_openapi_spec env spec_url with
        | None => mkStartup (Exited 1) None false
        | Some _ =>
            let listing := list_functions env "OPENAPI_SPEC_URL" in
            match mcp_run with
            | None => mkStartup Returned (Some listing) true
            | Some _ => mkStartup (Exited 1) (Some listing) true
            end
        end
  end.

(** ** Further notions *)

(** The enumeration of the lookup of [call_function]: every operation under
    one of the five methods, in document order, whitelisted or not. *)
Definition supported_operations (paths : list (string * PathItem))
  : list (string * string * Operation) :=
  flat_map
    (fun entry =>
       map (fun slot => (fst entry, fst slot, snd slot))
         (List.filter (fun slot => method_supported (fst slot)) (snd entry)))
    paths.

(** The registry entry of an enumerated operation. *)
Definition entry_pair (env : Env) (e : string * string * Operation)
  : string * ToolDescriptor :=
  (entry_name env e, entry_descriptor env e).

(** The environment in which the Spec Accessor hands back its documents
    as [change] leaves them. *)
Definition refetching (env : Env) (change : Spec -> Spec) : Env :=
  {| environ := environ env;
     fetch_openapi_spec := fun spec_url => change <$> fetch_openapi_spec env spec_url;
     get_tool_prefix := get_tool_prefix env;
     normalize_tool_name := normalize_tool_name env;
     is_tool_whitelisted := is_tool_whitelisted env;
     handle_auth := handle_auth env;
     strip_param := strip_param env;
     build_base_url := build_base_url env;
     http := http env |}.

(** [sub in s] for two [str]. *)
Fixpoint contains_text (sub s : string) : bool :=
  String.prefix sub s
  || match s with
     | EmptyString => false
     | String _ s' => contains_text sub s'
     end.

(** The concrete environment over a document that names no server, so
    that no base URL is to be had. *)
Definition serverless_env (paths : option (list (string * PathItem))) : Env :=
  {| environ := {[ "OPENAPI_SPEC_URL" := "http://spec.test/openapi.json" ]};
     fetch_openapi_spec := fun _ =>
       Some {| spec_paths := paths; spec_servers := [] |};
     get_tool_prefix := None;
     normalize_tool_name := sample_normalize;
     is_tool_whitelisted := sample_whitelisted None;
     handle_auth := fun _ => [];
     strip_param := None;
     build_base_url := fun spec => head (spec_servers spec);
     http := fun request => inl ("response to " +:+ req_url request) |}.

(** The methods a request can carry. *)
Definition request_methods : list string :=
  ["GET"; "POST"; "PUT"; "DELETE"; "PATCH"].

(** A text made of slashes only. *)
Definition only_slashes (s : string) : bool :=
  forallb (Ascii.eqb "/") (list_ascii_of_string s).

(** * Properties *)

(** ** The built-ins *)

Lemma truthy_str_true (s : string) : Py.truthy_str s = true <-> s <> "".
Proof. destruct s; simpl; split; intros H; congruence. Qed.

Lemma truthy_str_false (s : string) : Py.truthy_str s = false <-> s = "".
Proof. destruct s; simpl; split; intros H; congruence. Qed.

(** ** The guards and the lookup of [call_function] *)

Lemma resolve_inv (env : Env) (function_name env_key : string) (spec : Spec)
    (function_def : FunctionDef) :
  resolve env function_name env_key = Some (spec, function_def) ->
  function_name <> "" /\
  fetched env env_key = Some spec /\
  find_function env function_name 0 (default [] (spec_paths spec))
    = Some function_def.
Proof.
  unfold resolve, fetched.
  destruct (Py.truthy_str function_name) eqn:Hname; simpl; [|discriminate].
  destruct (spec_location env env_key) as [url|]; [|discriminate].
  destruct (Py.truthy_str url); simpl; [|discriminate].
  destruct (fetch_openapi_spec env url) as [doc|]; [|discriminate].
  destruct (find_function env function_name 0 _) as [fd|] eqn:Hfind; [|discriminate].
  intros [= <- <-]. apply truthy_str_true in Hname. auto.
Qed.

Lemma call_function_resolved (env : Env) (function_name env_key : string)
    (parameters : option (gmap string scalar)) (spec : Spec)
    (function_def : FunctionDef) :
  resolve env function_name env_key = Some (spec, function_def) ->
  call_function env function_name parameters env_key
    = dispatch env function_name spec function_def parameters.
Proof.
  unfold resolve, call_function.
  destruct (Py.truthy_str function_name); simpl; [|discriminate].
  destruct (spec_location env env_key) as [url|]; [|discriminate].
  destruct (Py.truthy_str url); simpl; [|discriminate].
  destruct (fetch_openapi_spec env url) as [doc|]; [|discriminate].
  destruct (find_function env function_name 0 _) as [fd|]; [|discriminate].
  now intros [= <- <-].
Qed.

Lemma call_function_unresolved (env : Env) (function_name env_key : string)
    (parameters : option (gmap string scalar)) :
  resolve env function_name env_key = None ->
  sent (call_function env function_name parameters env_key) = [] /\
  exists msg,
    reply (call_function env function_name parameters env_key) = ErrorObject msg.
Proof.
  unfold resolve, call_function.
  destruct (Py.truthy_str function_name); simpl; [|eauto].
  destruct (spec_location env env_key) as [url|]; [|eauto].
  destruct (Py.truthy_str url); simpl; [|eauto].
  destruct (fetch_openapi_spec env url) as [doc|]; [|eauto].
  destruct (find_function env function_name 0 _) as [fd|]; [discriminate|eauto].
Qed.

(** A dispatch either stops at an error object without a request, or sends
    the one request that [build_request] yields, for a whitelisted path. *)
Lemma dispatch_cases (env : Env) (function_name : string) (spec : Spec)
    (function_def : FunctionDef) (parameters : option (gmap string scalar)) :
  let out := dispatch env function_name spec function_def parameters in
  (sent out = [] /\ exists msg, reply out = ErrorObject msg) \/
  (exists base_url request,
      is_tool_whitelisted env (fd_path function_def) = true /\
      build_base_url env
        (store_method (fd_ref function_def) (fd_method function_def) spec)
        = Some base_url /\
      base_url <> "" /\
      build_request (fd_method function_def) (fd_path function_def) base_url
        (set_method (fd_method function_def) (fd_operation function_def))
        (dispatch_headers env function_def) (strip_parameters env parameters)
        = inr request /\
      sent out = [request]).
Proof.
  unfold dispatch; cbv zeta. fold (dispatch_headers env function_def).
  destruct (is_tool_whitelisted env (fd_path function_def)) eqn:Hw; cbn [negb];
    [|left; eauto].
  destruct (build_base_url env _) as [base|] eqn:Hbase; [|left; eauto].
  destruct (Py.truthy_str base) eqn:Ht; cbn [negb]; [|left; eauto].
  apply truthy_str_true in Ht.
  match goal with
  | |- context [build_request ?m ?p ?b ?o ?h ?q] =>
      destruct (build_request m p b o h q) as [msg|request] eqn:Hreq
  end; [left; eauto|].
  right. exists base, request.
  destruct (http env request); cbn [sent]; auto.
Qed.

(** ** Dictionaries *)

Section DictFacts.
Context {V : Type}.
Implicit Types (d : list (string * V)) (k n : string) (v : V).

Lemma dict_get_set d k v n :
  dict_get n (dict_set k v d) = if String.eqb k n then Some v else dict_get n d.
Proof.
  induction d as [|[k' v'] d IH]; simpl.
  - reflexivity.
  - destruct (String.eqb k' k) eqn:Hk; simpl.
    + apply String.eqb_eq in Hk. subst k'. destruct (String.eqb k n); reflexivity.
    + destruct (String.eqb k' n) eqn:Hn.
      * apply String.eqb_eq in Hn. subst k'. rewrite String.eqb_sym, Hk. reflexivity.
      * apply IH.
Qed.

Lemma dict_mem_get d k : dict_mem k d = true <-> is_Some (dict_get k d).
Proof.
  induction d as [|[k' v'] d IH]; simpl.
  - split; [discriminate | intros [x Hx]; discriminate].
  - destruct (String.eqb k' k); [split; eauto | exact IH].
Qed.

Lemma dict_mem_keys d k : dict_mem k d = true <-> In k (map fst d).
Proof.
  induction d as [|[k' v'] d IH]; simpl.
  - split; [discriminate | tauto].
  - destruct (String.eqb k' k) eqn:Hk.
    + apply String.eqb_eq in Hk. tauto.
    + apply String.eqb_neq in Hk. rewrite IH. tauto.
Qed.

Lemma dict_set_fresh d k v : dict_mem k d = false -> dict_set k v d = d ++ [(k, v)].
Proof.
  induction d as [|[k' v'] d IH]; simpl; [reflexivity|].
  destruct (String.eqb k' k); [discriminate|].
  intros H. now rewrite IH.
Qed.

End DictFacts.

Lemma find_app_first {A : Type} (f : A -> bool) (l1 l2 : list A) :
  find f (l1 ++ l2) = match find f l1 with Some x => Some x | None => find f l2 end.
Proof.
  induction l1 as [|a l1 IH]; simpl; [reflexivity|].
  destruct (f a); [reflexivity | exact IH].
Qed.

(** ** The Schema Deriver *)

Lemma fold_add_param_required (params : list ParamDecl) (schema : InputSchema) :
  required (fold_left add_param params schema)
    = required schema ++ map p_name (List.filter param_required params).
Proof.
  revert schema. induction params as [|param params IH]; intros schema; simpl.
  - now rewrite app_nil_r.
  - rewrite IH. unfold add_param; simpl.
    destruct (param_required param); simpl; [now rewrite <- app_assoc | reflexivity].
Qed.

(** The last declaration of a name is the one the schema keeps. *)
Lemma fold_add_param_properties (params : list ParamDecl) (schema : InputSchema)
    (n : string) :
  dict_get n (properties (fold_left add_param params schema))
    = match find (fun param => String.eqb (p_name param) n) (rev params) with
      | Some param => Some (property_of param)
      | None => dict_get n (properties schema)
      end.
Proof.
  revert schema. induction params as [|param params IH]; intros schema; simpl.
  - reflexivity.
  - rewrite IH, find_app_first.
    destruct (find _ (rev params)); [reflexivity|].
    simpl. unfold add_param; simpl. rewrite dict_get_set.
    destruct (String.eqb (p_name param) n); reflexivity.
Qed.

Lemma find_none_iff {A : Type} (f : A -> bool) (l : list A) :
  find f l = None <-> forall x, In x l -> f x = false.
Proof.
  induction l as [|a l IH]; simpl.
  - split; [intros _ x [] | reflexivity].
  - destruct (f a) eqn:Hfa.
    + split; [discriminate|]. intros H. specialize (H a (or_introl eq_refl)). congruence.
    + rewrite IH. split.
      * intros H x [<-|Hx]; auto.
      * intros H x Hx. apply H. now right.
Qed.





(** ** Listing and calling without a usable document *)

Lemma list_functions_fetched (env : Env) (env_key : string) :
  list_functions env env_key
    = match fetched env env_key with
      | None => mkOutcome (ToolList []) [] None
      | Some spec =>
          mkOutcome
            (ToolList (map snd (build_registry env (default [] (spec_paths spec)))))
            [] (Some spec)
      end.
Proof.
  unfold list_functions, fetched.
  destruct (spec_location env env_key) as [url|]; [|reflexivity].
  destruct (Py.truthy_str url); simpl negb; cbv iota; [|reflexivity].
  destruct (fetch_openapi_spec env url) as [spec|]; [|reflexivity].
  destruct (default [] (spec_paths spec)); reflexivity.
Qed.

(** C8, as stated, fails for the empty name: under a document without a
    ["paths"] entry, [call_function] answers the empty [function_name] with
    "function_name is required", not with "Function '' not found". *)
Lemma empty_name_is_required_not_missing :
  let env := sample_env None None in
  (exists spec,
      fetched env "OPENAPI_SPEC_URL" = Some spec /\ spec_paths spec = None) /\
  reply (call_function env "" None "OPENAPI_SPEC_URL")
    = ErrorObject "function_name is required" /\
  reply (call_function env "" None "OPENAPI_SPEC_URL")
    <> ErrorObject ("Function '" +:+ "" +:+ "' not found").
Proof.
  split; [|split].
  - eexists. split; vm_compute; reflexivity.
  - vm_compute. reflexivity.
  - vm_compute. discriminate.
Qed.

(** C8 (amended).  When the location of the document is not configured,
    or the document cannot be fetched or parsed, or the fetched document
    has no ["paths"] entry, [list_functions] returns the empty array and no
    error object; under such a document without ["paths"], [call_function]
    with any non-empty tool name returns the error object that says the
    function was not found, and sends no request. *)
Theorem no_document_no_tools (env : Env) (env_key function_name : string)
    (parameters : option (gmap string scalar)) :
  (spec_location env env_key = None \/ spec_location env env_key = Some "") \/
  (exists spec_url,
      spec_location env env_key = Some spec_url /\
      fetch_openapi_spec env spec_url = None) \/
  (exists spec_url spec,
      spec_location env env_key = Some spec_url /\
      fetch_openapi_spec env spec_url = Some spec /\
      spec_paths spec = None) ->
  reply (list_functions env env_key) = ToolList [] /\
  ((exists spec_url spec,
       spec_location env env_key = Some spec_url /\ spec_url <> "" /\
       fetch_openapi_spec env spec_url = Some spec /\
       spec_paths spec = None) ->
   function_name <> "" ->
   reply (call_function env function_name parameters env_key)
     = ErrorObject ("Function '" +:+ function_name +:+ "' not found") /\
   sent (call_function env function_name parameters env_key) = []).
Proof.
  intros Hcase. split.
  - unfold list_functions.
    destruct Hcase as [[-> | ->] | [(url & -> & Hfetch) | (url & spec & -> & Hfetch & Hpaths)]].
    + reflexivity.
    + reflexivity.
    + destruct (Py.truthy_str url); simpl negb; cbv iota; [|reflexivity].
      now rewrite Hfetch.
    + destruct (Py.truthy_str url); simpl negb; cbv iota; [|reflexivity].
      now rewrite Hfetch, Hpaths.
  - intros (url & spec & Hloc & Hurl & Hfetch & Hpaths) Hname.
    unfold call_function.
    apply truthy_str_true in Hname. apply truthy_str_true in Hurl.
    rewrite Hname, Hloc, Hurl; simpl negb; cbv iota.
    rewrite Hfetch, Hpaths. simpl. auto.
Qed.

Lemma no_document_no_tools_witness :
  reply (list_functions (sample_env None None) "OPENAPI_SPEC_URL") = ToolList [] /\
  reply (call_function (sample_env None None) "get__items" None "OPENAPI_SPEC_URL")
    = ErrorObject "Function 'get__items' not found".
Proof.
  destruct (no_document_no_tools (sample_env None None) "OPENAPI_SPEC_URL"
              "get__items" None) as [Hlist Hcall].
  - right; right.
    exists "http://spec.test/openapi.json",
      {| spec_paths := None; spec_servers := ["http://api.test/v1/"] |}.
    repeat split; vm_compute; reflexivity.
  - split; [exact Hlist|].
    destruct Hcall as [Hreply _]; [|discriminate|exact Hreply].
    exists "http://spec.test/openapi.json",
      {| spec_paths := None; spec_servers := ["http://api.test/v1/"] |}.
    repeat split; try (vm_compute; reflexivity). discriminate.
Defined.

(** ** Sanitizing the caller's parameters *)

Lemma drop_stream_lookup (parameters : gmap string scalar) (k : string) :
  drop_stream parameters !! k
    = match parameters !! k with
      | Some value =>
          if String.eqb k "stream" && truthy value then None else Some value
      | None => None
      end.
Proof.
  unfold drop_stream.
  destruct (String.eqb k "stream") eqn:Hk.
  - apply String.eqb_eq in Hk. subst k.
    destruct (parameters !! "stream") as [value|] eqn:Hs.
    + destruct (truthy value); simpl.
      * apply lookup_delete_eq.
      * exact Hs.
    + exact Hs.
  - apply String.eqb_neq in Hk.
    destruct (parameters !! "stream") as [value|] eqn:Hs.
    + destruct (truthy value).
      * rewrite lookup_delete_ne by congruence. now destruct (parameters !! k).
      * now destruct (parameters !! k).
    + now destruct (parameters !! k).
Qed.

Lemma drop_stream_absent (parameters : gmap string scalar) (k : string) :
  parameters !! k = None -> drop_stream parameters !! k = None.
Proof. intros H. now rewrite drop_stream_lookup, H. Qed.

Lemma strip_parameters_absent (env : Env)
    (parameters : option (gmap string scalar)) (k : string) :
  default ∅ parameters !! k = None ->
  exists sanitized,
    strip_parameters env parameters = Some sanitized /\ sanitized !! k = None.
Proof.
  intros H. unfold strip_parameters. eexists. split; [reflexivity|].
  destruct (strip_param env) as [key|]; [|exact H].
  destruct (decide (key = k)) as [->|Hne].
  - apply lookup_delete_eq.
  - now rewrite lookup_delete_ne.
Qed.

(** ** Required path parameters *)

Lemma is_path_param_spec (param : ParamDecl) :
  is_path_param param = true <-> p_in param = Some "path".
Proof.
  unfold is_path_param. destruct (p_in param) as [location|].
  - rewrite String.eqb_eq. split; congruence.
  - split; discriminate.
Qed.

Lemma param_required_spec (param : ParamDecl) :
  param_required param = true <-> p_required param = Some true.
Proof.
  unfold param_required. destruct (p_required param) as [[|]|]; simpl;
    split; congruence.
Qed.

Lemma in_missing_required (operation : Operation)
    (parameters : gmap string scalar) (param : ParamDecl) :
  In param (default [] (op_parameters operation)) ->
  p_in param = Some "path" ->
  p_required param = Some true ->
  parameters !! p_name param = None ->
  In (p_name param) (missing_required operation parameters).
Proof.
  intros Hin Hpath Hreq Habsent. unfold missing_required.
  apply in_map, filter_In. split; [exact Hin|].
  apply is_path_param_spec in Hpath. apply param_required_spec in Hreq.
  rewrite Hpath, Hreq, Habsent. reflexivity.
Qed.

Lemma build_request_missing (method path base_url : string) (operation : Operation)
    (headers : list (string * string)) (parameters : gmap string scalar)
    (param : ParamDecl) :
  In param (default [] (op_parameters operation)) ->
  p_in param = Some "path" ->
  p_required param = Some true ->
  drop_stream parameters !! p_name param = None ->
  build_request method path base_url operation headers (Some parameters)
    = inl ("Missing required path parameters: "
           +:+ Py.str_list (missing_required operation (drop_stream parameters))).
Proof.
  intros Hin Hpath Hreq Habsent.
  pose proof (in_missing_required _ _ _ Hin Hpath Hreq Habsent) as Hmissing.
  assert (Hnames : In (p_name param) (path_params_in_openapi operation)).
  { unfold path_params_in_openapi. apply in_map, filter_In.
    split; [exact Hin | now apply is_path_param_spec]. }
  unfold build_request.
  destruct (path_params_in_openapi operation) as [|name names]; [destruct Hnames|].
  destruct (missing_required operation (drop_stream parameters)) as [|m ms];
    [destruct Hmissing | reflexivity].
Qed.

(** C3, as stated, fails when an earlier check stops the call: the
    example of the design document, [GET /items/{id}] with [id] required and
    no parameters passed, answers with the error about the base URL when the
    document names no server, and with the access-denied error when the
    whitelist excludes the path.  Neither is the error that lists the
    missing parameters, and the first does not mention [id] at all. *)
Lemma missing_parameter_error_preempted :
  let operation := plain_operation (Some [path_parameter "id" (Some true)]) in
  In (path_parameter "id" (Some true)) (default [] (op_parameters operation)) /\
  (let out :=
     call_function (serverless_env (Some items_paths)) "get__items__id_" None
       "OPENAPI_SPEC_URL" in
   reply out = ErrorObject "No base URL defined in spec or SERVER_URL_OVERRIDE" /\
   contains_text "id" "No base URL defined in spec or SERVER_URL_OVERRIDE" = false /\
   forall missing,
     reply out
       <> ErrorObject ("Missing required path parameters: " +:+ Py.str_list missing)) /\
  (let out :=
     call_function (sample_env (Some ["/other"]) (Some items_paths))
       "get__items__id_" None "OPENAPI_SPEC_URL" in
   reply out = ErrorObject "Access to function 'get__items__id_' is not allowed" /\
   forall missing,
     reply out
       <> ErrorObject ("Missing required path parameters: " +:+ Py.str_list missing)).
Proof.
  split; [left; reflexivity|]. split.
  - assert (Hreply :
              reply (call_function (serverless_env (Some items_paths))
                       "get__items__id_" None "OPENAPI_SPEC_URL")
              = ErrorObject "No base URL defined in spec or SERVER_URL_OVERRIDE")
      by (vm_compute; reflexivity).
    cbv zeta. rewrite Hreply.
    split; [reflexivity|]. split; [vm_compute; reflexivity|].
    intros missing. discriminate.
  - assert (Hreply :
              reply (call_function (sample_env (Some ["/other"]) (Some items_paths))
                       "get__items__id_" None "OPENAPI_SPEC_URL")
              = ErrorObject "Access to function 'get__items__id_' is not allowed")
      by (vm_compute; reflexivity).
    cbv zeta. rewrite Hreply.
    split; [reflexivity|]. intros missing. discriminate.
Qed.

(** C3 (amended).  When the call resolves to an operation that declares a
    required path parameter and the caller's parameters (none at all
    included) lack it, [call_function] returns an error object and sends no
    request; and when the path passes the whitelist and a base URL is
    known, the error object is the one that lists the missing required path
    parameters, with every required path parameter that the caller left out
    in the list. *)
Theorem missing_path_parameter_reported (env : Env) (function_name env_key : string)
    (parameters : option (gmap string scalar)) (spec : Spec)
    (function_def : FunctionDef) (param : ParamDecl) :
  resolve env function_name env_key = Some (spec, function_def) ->
  In param (default [] (op_parameters (fd_operation function_def))) ->
  p_in param = Some "path" ->
  p_required param = Some true ->
  default ∅ parameters !! p_name param = None ->
  let out := call_function env function_name parameters env_key in
  sent out = [] /\
  (exists msg, reply out = ErrorObject msg) /\
  (is_tool_whitelisted env (fd_path function_def) = true ->
   (exists base_url,
       build_base_url env
         (store_method (fd_ref function_def) (fd_method function_def) spec)
         = Some base_url /\ base_url <> "") ->
   exists missing,
     reply out
       = ErrorObject ("Missing required path parameters: " +:+ Py.str_list missing) /\
     forall q,
       In q (default [] (op_parameters (fd_operation function_def))) ->
       p_in q = Some "path" ->
       p_required q = Some true ->
       default ∅ parameters !! p_name q = None ->
       In (p_name q) missing).
Proof.
  intros Hres Hin Hpath Hreq Habsent out. subst out.
  rewrite (call_function_resolved _ _ _ parameters _ _ Hres).
  destruct (strip_parameters env parameters) as [sanitized|] eqn:Hstrip;
    [|discriminate].
  assert (Hbuild : forall base_url,
             build_request (fd_method function_def) (fd_path function_def) base_url
               (set_method (fd_method function_def) (fd_operation function_def))
               (dispatch_headers env function_def) (Some sanitized)
             = inl ("Missing required path parameters: "
                    +:+ Py.str_list
                          (missing_required (fd_operation function_def)
                             (drop_stream sanitized)))).
  { intros base_url.
    destruct (strip_parameters_absent env parameters _ Habsent) as (s & Hs & Hnone).
    rewrite Hstrip in Hs. injection Hs as <-.
    rewrite (build_request_missing _ _ _ _ _ _ param);
      [reflexivity | exact Hin | exact Hpath | exact Hreq
      | now apply drop_stream_absent]. }
  unfold dispatch; cbv zeta. fold (dispatch_headers env function_def).
  rewrite Hstrip.
  destruct (is_tool_whitelisted env (fd_path function_def)); cbn [negb].
  - destruct (build_base_url env _) as [base|] eqn:Hbase.
    + destruct (Py.truthy_str base) eqn:Ht; cbn [negb].
      * rewrite Hbuild. cbn [sent reply]. split; [reflexivity|].
        split; [eauto|]. intros _ _. eexists. split; [reflexivity|].
        intros q Hq Hqpath Hqreq Hqabsent.
        apply in_missing_required; auto.
        destruct (strip_parameters_absent env parameters _ Hqabsent) as (s & Hs & Hnone).
        rewrite Hstrip in Hs. injection Hs as <-. now apply drop_stream_absent.
      * cbn [sent reply]. split; [reflexivity|]. split; [eauto|].
        intros _ (b & [= <-] & Hb). apply truthy_str_false in Ht. contradiction.
    + cbn [sent reply]. split; [reflexivity|]. split; [eauto|].
      intros _ (b & Hb & _). discriminate.
  - cbn [sent reply]. split; [reflexivity|]. split; [eauto|]. discriminate.
Qed.

Lemma missing_path_parameter_witness :
  let out :=
    call_function (sample_env None (Some items_paths)) "get__items__id_" None
      "OPENAPI_SPEC_URL" in
  sent out = [] /\
  reply out = ErrorObject "Missing required path parameters: ['id']".
Proof.
  pose (env := sample_env None (Some items_paths)).
  pose (op := plain_operation (Some [path_parameter "id" (Some true)])).
  destruct (missing_path_parameter_reported env "get__items__id_" "OPENAPI_SPEC_URL"
              None
              {| spec_paths := Some items_paths;
                 spec_servers := ["http://api.test/v1/"] |}
              {| fd_path := "/items/{id}"; fd_method := "GET"; fd_ref := (0, 0);
                 fd_operation := op |}
              (path_parameter "id" (Some true)))
    as (Hsent & _ & _).
  - vm_compute. reflexivity.
  - simpl. left. reflexivity.
  - reflexivity.
  - reflexivity.
  - vm_compute. reflexivity.
  - split; [exact Hsent|]. vm_compute. reflexivity.
Defined.

(** ** The request that is sent *)

Lemma substitute_path_params_remaining (names : list string) (api_url : string)
    (parameters : gmap string scalar) :
  snd (substitute_path_params names api_url parameters)
    = filter (fun kv => kv.1 ∉ names) parameters.
Proof.
  revert api_url parameters.
  induction names as [|name names IH]; intros api_url parameters; simpl.
  - symmetry. apply map_filter_id. intros k x _. simpl. apply not_elem_of_nil.
  - destruct (parameters !! name) as [value|] eqn:Hname; rewrite IH;
      apply map_eq; intros k; apply option_eq; intros x;
      rewrite !map_lookup_filter_Some; simpl; rewrite not_elem_of_cons.
    + rewrite lookup_delete_Some. intuition congruence.
    + intuition congruence.
Qed.


Lemma remaining_parameters_lookup (operation : Operation)
    (parameters : gmap string scalar) (k : string) :
  remaining_parameters operation parameters !! k
    = if decide (k ∈ path_params_in_openapi operation) then None
      else drop_stream parameters !! k.
Proof.
  unfold remaining_parameters. apply option_eq. intros x.
  rewrite map_lookup_filter_Some; simpl.
  destruct (decide (k ∈ path_params_in_openapi operation));
    intuition (congruence || contradiction).
Qed.

Lemma build_request_sent (method path base_url : string) (operation : Operation)
    (headers : list (string * string)) (parameters : gmap string scalar)
    (request : Request) :
  build_request method path base_url operation headers (Some parameters)
    = inr request ->
  request
    = place_parameters method
        (fst (substitute_path_params (path_params_in_openapi operation)
                (url_template base_url path) (drop_stream parameters)))
        headers (remaining_parameters operation parameters).
Proof.
  unfold build_request, remaining_parameters.
  fold (url_template base_url path).
  rewrite <- (substitute_path_params_remaining _ (url_template base_url path)).
  destruct (path_params_in_openapi operation) as [|name names] eqn:Hnames.
  - intros [= <-]. reflexivity.
  - destruct (missing_required operation (drop_stream parameters)); [|discriminate].
    destruct (substitute_path_params (name :: names) _ _) as [url rest].
    intros [= <-]. reflexivity.
Qed.

(** Whatever request [call_function] sends is the request of the operation
    the lookup arrived at, and that operation's path passed the whitelist. *)
Lemma call_function_sent (env : Env) (function_name env_key : string)
    (parameters : option (gmap string scalar)) (spec : Spec)
    (function_def : FunctionDef) (request : Request) :
  resolve env function_name env_key = Some (spec, function_def) ->
  sent (call_function env function_name parameters env_key) = [request] ->
  exists base_url sanitized,
    is_tool_whitelisted env (fd_path function_def) = true /\
    build_base_url env
      (store_method (fd_ref function_def) (fd_method function_def) spec)
      = Some base_url /\
    base_url <> "" /\
    strip_parameters env parameters = Some sanitized /\
    request
      = place_parameters (fd_method function_def)
          (fst (substitute_path_params
                  (path_params_in_openapi (fd_operation function_def))
                  (url_template base_url (fd_path function_def))
                  (drop_stream sanitized)))
          (dispatch_headers env function_def)
          (remaining_parameters (fd_operation function_def) sanitized).
Proof.
  intros Hres Hsent.
  rewrite (call_function_resolved _ _ _ parameters _ _ Hres) in Hsent.
  destruct (dispatch_cases env function_name spec function_def parameters)
    as [[Hnone _] | (base & request' & Hw & Hbase & Hne & Hbuild & Hone)].
  - rewrite Hnone in Hsent. discriminate.
  - rewrite Hone in Hsent. injection Hsent as ->.
    destruct (strip_parameters env parameters) as [sanitized|] eqn:Hstrip;
      [|discriminate].
    exists base, sanitized. repeat split; auto.
    apply build_request_sent in Hbuild. exact Hbuild.
Qed.

Lemma req_method_place (method api_url : string)
    (headers : list (string * string)) (parameters : gmap string scalar) :
  req_method (place_parameters method api_url headers parameters) = method.
Proof. unfold place_parameters. now destruct (String.eqb method "GET"). Qed.





(** ** Path substitution *)

Lemma append_nil_l (s : string) : "" +:+ s = s.
Proof. reflexivity. Qed.

Lemma append_cons (c : ascii) (a s : string) :
  String c a +:+ s = String c (a +:+ s).
Proof. reflexivity. Qed.

Lemma prefix_app_self (old b : string) : String.prefix old (old +:+ b) = true.
Proof.
  induction old as [|c old IH]; simpl; [now destruct b|].
  destruct (ascii_dec c c); [exact IH | congruence].
Qed.

Lemma replace_from_skip (old new x b : string) :
  Py.replace_from old new (String.length x) (x +:+ b)
    = Py.replace_from old new 0 b.
Proof. induction x as [|c x IH]; simpl; [reflexivity | exact IH]. Qed.

(** What [replace] does at the first occurrence: when the text before it
    has no character equal to the first character of [old], the text is
    kept, [new] stands where [old] stood, and the rest is replaced on. *)
Lemma replace_first (c0 : ascii) (old' new a b : string) :
  Py.contains_char c0 a = false ->
  Py.replace (String c0 old') new (a +:+ String c0 old' +:+ b)
    = a +:+ new +:+ Py.replace (String c0 old') new b.
Proof.
  unfold Py.replace, Py.contains_char.
  induction a as [|c a IH]; intros Hfree.
  - rewrite !append_nil_l, append_cons. simpl.
    destruct (ascii_dec c0 c0) as [_|Hne]; [|congruence].
    rewrite prefix_app_self, Nat.sub_0_r.
    now rewrite replace_from_skip.
  - simpl in Hfree.
    apply orb_false_iff in Hfree as [Hc Ha].
    rewrite !append_cons. simpl.
    destruct (ascii_dec c0 c) as [->|_].
    + rewrite Ascii.eqb_refl in Hc. discriminate.
    + f_equal. apply IH, Ha.
Qed.

Lemma req_url_place (method api_url : string) (headers : list (string * string))
    (parameters : gmap string scalar) :
  req_url (place_parameters method api_url headers parameters) = api_url.
Proof. unfold place_parameters. now destruct (String.eqb method "GET"). Qed.

Lemma place_parameters_forwarded (method api_url : string)
    (headers : list (string * string)) (parameters forwarded : gmap string scalar) :
  req_params (place_parameters method api_url headers parameters) = Some forwarded \/
  req_json (place_parameters method api_url headers parameters) = Some forwarded ->
  forwarded = parameters.
Proof.
  unfold place_parameters.
  destruct (String.eqb method "GET"); simpl; intros [H|H]; congruence.
Qed.




(** ** The stream flag *)




(** ** The lookup *)

Lemma find_in_item_sound (env : Env) (function_name path : string) (j0 : nat)
    (path_item : PathItem) (j : nat) (method : string) (operation : Operation) :
  find_in_item env function_name path j0 path_item = Some (j, method, operation) ->
  exists k declared,
    j = j0 + k /\
    path_item !! k = Some (declared, operation) /\
    method = Py.upper declared /\
    method_supported declared = true /\
    tool_name env declared path = function_name.
Proof.
  revert j0. induction path_item as [|[declared op] rest IH]; intros j0; simpl.
  - discriminate.
  - destruct (method_supported declared) eqn:Hsup; simpl.
    + destruct (String.eqb (tool_name env declared path) function_name) eqn:Hname.
      * intros [= <- <- <-]. exists 0, declared.
        apply String.eqb_eq in Hname. rewrite Nat.add_0_r. auto.
      * intros H. destruct (IH _ H) as (k & d & -> & Hk & Hrest).
        exists (S k), d. split; [lia | auto].
    + intros H. destruct (IH _ H) as (k & d & -> & Hk & Hrest).
      exists (S k), d. split; [lia | auto].
Qed.

(** What the lookup returns is an operation of the document, at the place
    [fd_ref] says, under a supported method, and its name is the one asked
    for. *)
Lemma find_function_sound (env : Env) (function_name : string) (i0 : nat)
    (paths : list (string * PathItem)) (function_def : FunctionDef) :
  find_function env function_name i0 paths = Some function_def ->
  exists i j path_item declared,
    fd_ref function_def = (i0 + i, j) /\
    paths !! i = Some (fd_path function_def, path_item) /\
    path_item !! j = Some (declared, fd_operation function_def) /\
    fd_method function_def = Py.upper declared /\
    method_supported declared = true /\
    tool_name env declared (fd_path function_def) = function_name.
Proof.
  revert i0. induction paths as [|[path item] rest IH]; intros i0; simpl.
  - discriminate.
  - destruct (find_in_item env function_name path 0 item) as [[[j m] op]|] eqn:Hitem.
    + intros [= <-]. simpl.
      apply find_in_item_sound in Hitem as (k & d & -> & Hk & -> & Hsup & Hname).
      exists 0, k, item, d. split; [simpl; f_equal; lia | auto].
    + intros H. destruct (IH _ H) as (i & j & it & d & Href & Hi & Hrest).
      exists (S i), j, it, d. split; [|auto].
      rewrite Href. f_equal. lia.
Qed.

Lemma find_in_item_complete (env : Env) (function_name path : string) (j0 : nat)
    (path_item : PathItem) (method : string) (operation : Operation) :
  In (method, operation) path_item ->
  method_supported method = true ->
  tool_name env method path = function_name ->
  is_Some (find_in_item env function_name path j0 path_item).
Proof.
  intros Hin Hsup Hname. revert j0.
  induction path_item as [|[declared op] rest IH]; intros j0; simpl.
  - destruct Hin.
  - destruct (method_supported declared) eqn:Hd; simpl.
    + destruct (String.eqb (tool_name env declared path) function_name) eqn:He;
        [eauto|].
      destruct Hin as [[= -> ->]|Hin]; [|now apply IH].
      apply String.eqb_neq in He. contradiction.
    + destruct Hin as [[= -> ->]|Hin]; [congruence | now apply IH].
Qed.

(** A name that some operation under a supported method bears is found. *)
Lemma find_function_complete (env : Env) (function_name : string) (i0 : nat)
    (paths : list (string * PathItem)) (path method : string)
    (path_item : PathItem) (operation : Operation) :
  In (path, path_item) paths ->
  In (method, operation) path_item ->
  method_supported method = true ->
  tool_name env method path = function_name ->
  is_Some (find_function env function_name i0 paths).
Proof.
  intros Hin Hop Hsup Hname. revert i0.
  induction paths as [|[p item] rest IH]; intros i0; simpl.
  - destruct Hin.
  - destruct (find_in_item env function_name p 0 item) as [[[j m] op]|] eqn:Hitem;
      [eauto|].
    destruct Hin as [[= -> ->]|Hin]; [|now apply IH].
    destruct (find_in_item_complete env function_name path 0 path_item method
                operation Hop Hsup Hname) as [x Hx].
    congruence.
Qed.

(** ** What a call does to the document *)

Lemma map_alter_same {A B : Type} (f : A -> B) (g : A -> A) (l : list A) (i : nat) :
  (forall x, f (g x) = f x) -> map f (alter g i l) = map f l.
Proof.
  intros Hfg. revert i. induction l as [|a l IH]; intros [|i]; try reflexivity.
  - cbn. now rewrite Hfg.
  - cbn. f_equal. apply IH.
Qed.

Lemma store_method_keys (ref : nat * nat) (method : string) (spec : Spec) :
  document_keys (store_method ref method spec) = document_keys spec.
Proof.
  unfold document_keys, store_method; simpl.
  destruct (spec_paths spec) as [paths|]; simpl; [|reflexivity].
  f_equal. apply map_alter_same. intros [path item]; simpl. f_equal.
  now apply map_alter_same.
Qed.

Lemma store_method_operation_at (ref : nat * nat) (method : string) (spec : Spec)
    (i j : nat) :
  operation_at (store_method ref method spec) i j
    = (if decide (ref = (i, j)) then set_method method else id)
        <$> operation_at spec i j.
Proof.
  destruct ref as [i0 j0].
  unfold operation_at, store_method; cbn [spec_paths fst snd].
  destruct (spec_paths spec) as [paths|]; cbn [option_map default from_option id];
    [|reflexivity].
  destruct (decide (i0 = i)) as [->|Hi].
  - rewrite list_lookup_alter_eq.
    destruct (paths !! i) as [[path item]|];
      cbn [fmap option_fmap option_map fst snd]; [|reflexivity].
    destruct (decide (j0 = j)) as [->|Hj].
    + rewrite list_lookup_alter_eq, decide_True by reflexivity.
      now destruct (item !! j) as [[m op]|].
    + rewrite list_lookup_alter_ne, decide_False by congruence.
      now destruct (item !! j) as [[m op]|].
  - rewrite list_lookup_alter_ne, decide_False by congruence.
    destruct (paths !! i) as [[path item]|];
      cbn [fmap option_fmap option_map fst snd]; [|reflexivity].
    now destruct (item !! j) as [[m op]|].
Qed.

Lemma dispatch_document (env : Env) (function_name : string) (spec : Spec)
    (function_def : FunctionDef) (parameters : option (gmap string scalar)) :
  document (dispatch env function_name spec function_def parameters)
    = Some (store_method (fd_ref function_def) (fd_method function_def) spec).
Proof.
  unfold dispatch; cbv zeta.
  destruct (is_tool_whitelisted env (fd_path function_def)); cbn [negb];
    [|reflexivity].
  destruct (build_base_url env _) as [base|]; [|reflexivity].
  destruct (Py.truthy_str base); cbn [negb]; [|reflexivity].
  match goal with
  | |- context [build_request ?m ?p ?b ?o ?h ?q] =>
      destruct (build_request m p b o h q) as [msg|request]
  end; [reflexivity|].
  destruct (http env request); reflexivity.
Qed.

Lemma call_function_unresolved_document (env : Env) (function_name env_key : string)
    (parameters : option (gmap string scalar)) :
  resolve env function_name env_key = None ->
  document (call_function env function_name parameters env_key) = None \/
  document (call_function env function_name parameters env_key)
    = fetched env env_key.
Proof.
  unfold resolve, call_function, fetched.
  destruct (Py.truthy_str function_name); simpl; [|auto].
  destruct (spec_location env env_key) as [url|]; [|auto].
  destruct (Py.truthy_str url); simpl; [|auto].
  destruct (fetch_openapi_spec env url) as [doc|]; [|auto].
  destruct (find_function env function_name 0 _) as [fd|]; [discriminate|auto].
Qed.

(** C5, as stated, fails for [call_function]: a call that resolves writes
    the method into the operation object of the fetched document. *)
Lemma call_function_writes_method :
  let env := sample_env None (Some items_paths) in
  exists before after,
    fetched env "OPENAPI_SPEC_URL" = Some before /\
    document (call_function env "post__items" None "OPENAPI_SPEC_URL")
      = Some after /\
    operation_at before 1 0 = Some (plain_operation None) /\
    operation_at after 1 0 = Some (set_method "POST" (plain_operation None)) /\
    after <> before.
Proof.
  eexists _, _. split; [vm_compute; reflexivity|].
  split; [vm_compute; reflexivity|].
  split; [reflexivity|]. split; [reflexivity|]. discriminate.
Qed.

(** C5 (amended).  [list_functions] leaves the fetched document as it is.
    [call_function] leaves it as it is when the lookup finds nothing; when
    the lookup finds an operation, the call sets the ["method"] entry of that
    one operation object to the resolved method, and changes nothing else:
    not the keys of the document, not its server information, not any other
    operation object. *)
Theorem document_after_call (env : Env) (function_name env_key : string)
    (parameters : option (gmap string scalar)) :
  document (list_functions env env_key) = fetched env env_key /\
  match resolve env function_name env_key with
  | None =>
      document (call_function env function_name parameters env_key) = None \/
      document (call_function env function_name parameters env_key)
        = fetched env env_key
  | Some (spec, function_def) =>
      fetched env env_key = Some spec /\
      operation_at spec (fst (fd_ref function_def)) (snd (fd_ref function_def))
        = Some (fd_operation function_def) /\
      exists after,
        document (call_function env function_name parameters env_key)
          = Some after /\
        spec_servers after = spec_servers spec /\
        document_keys after = document_keys spec /\
        forall i j,
          operation_at after i j
            = (if decide (fd_ref function_def = (i, j))
               then set_method (fd_method function_def) else id)
                <$> operation_at spec i j
  end.
Proof.
  split.
  - rewrite list_functions_fetched. now destruct (fetched env env_key).
  - destruct (resolve env function_name env_key) as [[spec fd]|] eqn:Hres.
    + destruct (resolve_inv _ _ _ _ _ Hres) as (_ & Hfetched & Hfind).
      split; [exact Hfetched|].
      split.
      { apply find_function_sound in Hfind
          as (i & j & item & declared & Href & Hi & Hj & _).
        rewrite Href. unfold operation_at; simpl. rewrite Hi; simpl.
        now rewrite Hj. }
      exists (store_method (fd_ref fd) (fd_method fd) spec).
      rewrite (call_function_resolved _ _ _ parameters _ _ Hres), dispatch_document.
      split; [reflexivity|]. split; [reflexivity|].
      split; [apply store_method_keys|].
      intros i j. apply store_method_operation_at.
    + now apply call_function_unresolved_document.
Qed.

Lemma document_after_call_witness :
  let env := sample_env None (Some items_paths) in
  document (list_functions env "OPENAPI_SPEC_URL") = fetched env "OPENAPI_SPEC_URL" /\
  exists after,
    document (call_function env "post__items" None "OPENAPI_SPEC_URL") = Some after /\
    operation_at after 1 0 = Some (set_method "POST" (plain_operation None)) /\
    operation_at after 0 0
      = Some (plain_operation (Some [path_parameter "id" (Some true)])).
Proof.
  intros env.
  destruct (document_after_call env "post__items" "OPENAPI_SPEC_URL" None)
    as [Hlist Hcall].
  split; [exact Hlist|].
  change (resolve env "post__items" "OPENAPI_SPEC_URL")
    with (Some ({| spec_paths := Some items_paths;
                   spec_servers := ["http://api.test/v1/"] |},
                {| fd_path := "/items"; fd_method := "POST"; fd_ref := (1, 0);
                   fd_operation := plain_operation None |})) in Hcall.
  destruct Hcall as (_ & _ & after & Hafter & _ & _ & Hat).
  exists after. split; [exact Hafter|].
  split; [rewrite Hat | rewrite Hat]; reflexivity.
Defined.

(** ** The whitelist at dispatch *)

Lemma dispatch_denied (env : Env) (function_name : string) (spec : Spec)
    (function_def : FunctionDef) (parameters : option (gmap string scalar)) :
  is_tool_whitelisted env (fd_path function_def) = false ->
  reply (dispatch env function_name spec function_def parameters)
    = ErrorObject ("Access to function '" +:+ function_name +:+ "' is not allowed") /\
  sent (dispatch env function_name spec function_def parameters) = [].
Proof.
  intros Hw. unfold dispatch; cbv zeta. rewrite Hw. split; reflexivity.
Qed.

(** C2, as stated, fails when the name of an operation on an excluded
    path is also the name of an earlier operation on a whitelisted path:
    [/a/b] is excluded and absent from the listing, ["get__a_b"] names its
    GET operation, and [call_function] answers that name with the response
    of the request for [/a_b], not with an error object. *)
Lemma excluded_path_name_served :
  let env := sample_env (Some ["/a_b"]) (Some colliding_paths_reversed) in
  is_tool_whitelisted env "/a/b" = false /\
  tool_name env "get" "/a/b" = "get__a_b" /\
  (exists tool,
      reply (list_functions env "OPENAPI_SPEC_URL") = ToolList [tool] /\
      td_path tool = "/a_b") /\
  reply (call_function env "get__a_b" None "OPENAPI_SPEC_URL")
    = ResponseText "response to http://api.test/v1/a_b" /\
  sent (call_function env "get__a_b" None "OPENAPI_SPEC_URL")
    = [ {| req_method := "GET"; req_url := "http://api.test/v1/a_b";
           req_headers := []; req_params := Some ∅; req_json := None |} ].
Proof.
  split; [reflexivity|]. split; [reflexivity|].
  split; [eexists; split; vm_compute; reflexivity|].
  split; vm_compute; reflexivity.
Qed.

(** C2 (amended).  For a path that the whitelist excludes, [call_function]
    never sends the request of an operation on that path, whatever the name
    it is called with: either it returns an error object and sends nothing,
    or the first operation in document order that bears the name is on
    another path, one that passes the whitelist, and the request sent is the
    request of that operation.  When the first operation that bears the name
    is on the excluded path, the error object is the access-denied one. *)
Theorem excluded_path_not_served (env : Env) (function_name env_key path : string)
    (parameters : option (gmap string scalar)) :
  is_tool_whitelisted env path = false ->
  let out := call_function env function_name parameters env_key in
  ((sent out = [] /\ exists msg, reply out = ErrorObject msg) \/
   (exists spec function_def base_url sanitized,
       resolve env function_name env_key = Some (spec, function_def) /\
       fd_path function_def <> path /\
       is_tool_whitelisted env (fd_path function_def) = true /\
       strip_parameters env parameters = Some sanitized /\
       sent out
         = [ place_parameters (fd_method function_def)
               (fst (substitute_path_params
                       (path_params_in_openapi (fd_operation function_def))
                       (url_template base_url (fd_path function_def))
                       (drop_stream sanitized)))
               (dispatch_headers env function_def)
               (remaining_parameters (fd_operation function_def) sanitized) ])) /\
  (forall spec function_def,
      resolve env function_name env_key = Some (spec, function_def) ->
      fd_path function_def = path ->
      reply out
        = ErrorObject ("Access to function '" +:+ function_name +:+ "' is not allowed") /\
      sent out = []).
Proof.
  intros Hexcluded out. subst out. split.
  - destruct (resolve env function_name env_key) as [[spec fd]|] eqn:Hres.
    + rewrite (call_function_resolved _ _ _ parameters _ _ Hres).
      destruct (dispatch_cases env function_name spec fd parameters)
        as [Herr | (base & request & Hw & Hbase & Hne & Hbuild & Hone)];
        [left; exact Herr|].
      right.
      destruct (strip_parameters env parameters) as [sanitized|] eqn:Hstrip;
        [|discriminate].
      exists spec, fd, base, sanitized.
      split; [reflexivity|].
      split; [intros Heq; rewrite Heq in Hw; congruence|].
      split; [exact Hw|]. split; [reflexivity|].
      rewrite Hone. f_equal. now apply build_request_sent.
    + left. now apply call_function_unresolved.
  - intros spec fd Hres Hpath.
    rewrite (call_function_resolved _ _ _ parameters _ _ Hres).
    apply dispatch_denied. now rewrite Hpath.
Qed.

Lemma excluded_path_not_served_witness :
  let env := sample_env (Some ["/a_b"]) (Some colliding_paths) in
  reply (call_function env "get__a_b" None "OPENAPI_SPEC_URL")
    = ErrorObject "Access to function 'get__a_b' is not allowed" /\
  sent (call_function env "get__a_b" None "OPENAPI_SPEC_URL") = [].
Proof.
  intros env.
  destruct (excluded_path_not_served env "get__a_b" "OPENAPI_SPEC_URL" "/a/b" None)
    as [_ Hdenied].
  - vm_compute. reflexivity.
  - apply (Hdenied
             {| spec_paths := Some colliding_paths;
                spec_servers := ["http://api.test/v1/"] |}
             {| fd_path := "/a/b"; fd_method := "GET"; fd_ref := (0, 0);
                fd_operation := plain_operation None |}).
    + vm_compute. reflexivity.
    + reflexivity.
Defined.

(** ** The Registry Builder *)

Section Registry.
Variable env : Env.
Implicit Types (functions : list (string * ToolDescriptor))
  (e : string * string * Operation) (entries : list (string * string * Operation)).

Lemma add_entry_keys functions e :
  map fst (add_entry env functions e)
    = if dict_mem (entry_name env e) functions then map fst functions
      else map fst functions ++ [entry_name env e].
Proof.
  unfold add_entry. destruct (dict_mem (entry_name env e) functions);
    [reflexivity|]. now rewrite map_app.
Qed.

Lemma add_entry_elim functions e k d :
  In (k, d) (add_entry env functions e) ->
  In (k, d) functions \/ (k = entry_name env e /\ d = entry_descriptor env e).
Proof.
  unfold add_entry. destruct (dict_mem (entry_name env e) functions); [auto|].
  intros [H|[[= <- <-]|[]]]%in_app_or; auto.
Qed.

Lemma add_entry_intro functions e k d :
  In (k, d) functions -> In (k, d) (add_entry env functions e).
Proof.
  unfold add_entry. destruct (dict_mem (entry_name env e) functions); [auto|].
  intros H. apply in_or_app. now left.
Qed.

Lemma add_entry_fresh functions e :
  ~ In (entry_name env e) (map fst functions) ->
  In (entry_name env e, entry_descriptor env e) (add_entry env functions e).
Proof.
  intros Hfresh. unfold add_entry.
  destruct (dict_mem (entry_name env e) functions) eqn:Hmem.
  - apply dict_mem_keys in Hmem. contradiction.
  - apply in_or_app. right. now left.
Qed.

Lemma NoDup_snoc {A : Type} (l : list A) (x : A) :
  ~ In x l -> List.NoDup l -> List.NoDup (l ++ [x]).
Proof.
  intros Hx Hl. induction Hl as [|a l Ha Hl IH]; simpl.
  - constructor; [intros [] | constructor].
  - constructor.
    + intros [H|[->|[]]]%in_app_or; [contradiction|]. apply Hx. now left.
    + apply IH. intros H. apply Hx. now right.
Qed.

Lemma add_entry_nodup functions e :
  List.NoDup (map fst functions) ->
  List.NoDup (map fst (add_entry env functions e)).
Proof.
  intros Hnd. rewrite add_entry_keys.
  destruct (dict_mem (entry_name env e) functions) eqn:Hmem; [exact Hnd|].
  apply NoDup_snoc; [|exact Hnd].
  intros H. apply dict_mem_keys in H. congruence.
Qed.

Lemma fold_add_entry_nodup entries functions :
  List.NoDup (map fst functions) ->
  List.NoDup (map fst (fold_left (add_entry env) entries functions)).
Proof.
  revert functions. induction entries as [|e entries IH]; intros functions Hnd;
    simpl; [exact Hnd|].
  apply IH, add_entry_nodup, Hnd.
Qed.

Lemma fold_add_entry_intro entries functions k d :
  In (k, d) functions -> In (k, d) (fold_left (add_entry env) entries functions).
Proof.
  revert functions. induction entries as [|e entries IH]; intros functions H;
    simpl; [exact H|].
  apply IH, add_entry_intro, H.
Qed.

Lemma fold_add_entry_elim entries functions k d :
  In (k, d) (fold_left (add_entry env) entries functions) ->
  In (k, d) functions \/
  exists e, In e entries /\ k = entry_name env e /\ d = entry_descriptor env e.
Proof.
  revert functions. induction entries as [|e entries IH]; intros functions;
    simpl; [auto|].
  intros H. destruct (IH _ H) as [Hin | (e' & He' & Hk & Hd)].
  - destruct (add_entry_elim _ _ _ _ Hin) as [Hold | [Hk Hd]]; [auto|].
    right. exists e. auto.
  - right. exists e'. auto.
Qed.

Lemma fold_add_entry_keys entries functions k :
  In k (map fst (fold_left (add_entry env) entries functions)) ->
  In k (map fst functions) \/ In k (map (entry_name env) entries).
Proof.
  intros ([k' d] & Hk & Hin)%in_map_iff. simpl in Hk. subst k'.
  destruct (fold_add_entry_elim _ _ _ _ Hin) as [Hold | (e & He & -> & _)].
  - left. apply in_map_iff. exists (k, d). auto.
  - right. now apply in_map.
Qed.

(** The first operation of the enumeration that bears a name gets its
    descriptor into the registry. *)
Lemma fold_add_entry_first pre e post functions :
  (forall e', In e' pre -> entry_name env e' <> entry_name env e) ->
  ~ In (entry_name env e) (map fst functions) ->
  In (entry_name env e, entry_descriptor env e)
    (fold_left (add_entry env) (pre ++ e :: post) functions).
Proof.
  intros Hpre Hfresh. rewrite fold_left_app. simpl.
  apply fold_add_entry_intro, add_entry_fresh.
  intros [Hold | Hnew]%fold_add_entry_keys; [contradiction|].
  apply in_map_iff in Hnew as (e' & Hname & He').
  now apply (Hpre e' He').
Qed.

Lemma register_operation_add_entry path functions (slot : string * Operation) :
  register_operation env path functions slot
    = if Py.truthy_str (fst slot) && method_supported (fst slot)
      then add_entry env functions (path, fst slot, snd slot)
      else functions.
Proof.
  destruct slot as [method operation]. unfold register_operation, add_entry; simpl.
  destruct (Py.truthy_str method); simpl; [|reflexivity].
  destruct (method_supported method); simpl; [|reflexivity].
  unfold entry_name, entry_descriptor; simpl.
  destruct (dict_mem (tool_name env method path) functions) eqn:Hmem;
    [reflexivity|].
  now apply dict_set_fresh.
Qed.

Lemma fold_register_operation path (path_item : PathItem) functions :
  fold_left (register_operation env path) path_item functions
    = fold_left (add_entry env)
        (map (fun slot => (path, fst slot, snd slot)) (eligible_methods path_item))
        functions.
Proof.
  revert functions. induction path_item as [|slot rest IH]; intros functions;
    simpl; [reflexivity|].
  rewrite register_operation_add_entry, IH.
  destruct (Py.truthy_str (fst slot) && method_supported (fst slot)); reflexivity.
Qed.

(** The loops of [list_functions] build what the enumeration of the design
    document builds. *)
Lemma fold_register_path (paths : list (string * PathItem)) functions :
  fold_left (register_path env) paths functions
    = fold_left (add_entry env) (eligible_operations env paths) functions.
Proof.
  revert functions. induction paths as [|[path item] rest IH]; intros functions;
    simpl; [reflexivity|].
  rewrite fold_left_app, IH. f_equal.
  destruct item as [|slot item]; [now destruct (is_tool_whitelisted env path)|].
  destruct (is_tool_whitelisted env path); simpl negb; cbv iota; [|reflexivity].
  apply fold_register_operation.
Qed.

End Registry.





(** ** Listed names at dispatch *)

Lemma resolve_intro (env : Env) (function_name env_key : string) (spec : Spec)
    (function_def : FunctionDef) :
  function_name <> "" ->
  fetched env env_key = Some spec ->
  find_function env function_name 0 (default [] (spec_paths spec))
    = Some function_def ->
  resolve env function_name env_key = Some (spec, function_def).
Proof.
  intros Hname Hfetched Hfind. unfold resolve, fetched in *.
  apply truthy_str_true in Hname. rewrite Hname; simpl.
  destruct (spec_location env env_key) as [url|]; [|discriminate].
  destruct (Py.truthy_str url); simpl in *; [|discriminate].
  rewrite Hfetched, Hfind. reflexivity.
Qed.

Lemma eligible_operations_in (env : Env) (paths : list (string * PathItem))
    (path method : string) (operation : Operation) :
  In (path, method, operation) (eligible_operations env paths) ->
  exists path_item,
    In (path, path_item) paths /\
    In (method, operation) path_item /\
    method_supported method = true /\
    is_tool_whitelisted env path = true.
Proof.
  unfold eligible_operations. rewrite in_flat_map.
  intros ([p item] & Hin & He). simpl in He.
  destruct (is_tool_whitelisted env p) eqn:Hw; [|destruct He].
  apply in_map_iff in He as ([m op] & [= <- <- <-] & Hslot).
  unfold eligible_methods in Hslot. apply filter_In in Hslot as [Hslot Hok].
  simpl in Hok. apply andb_true_iff in Hok as [_ Hsup].
  exists item. auto.
Qed.

(** A listed name, when it is not empty, is found by the lookup of
    [call_function]: the answer is never that the function was not found. *)
Lemma listed_name_found (env : Env) (env_key : string) (spec : Spec)
    (tools : list ToolDescriptor) (d : ToolDescriptor) :
  fetched env env_key = Some spec ->
  reply (list_functions env env_key) = ToolList tools ->
  In d tools ->
  td_name d <> "" ->
  exists function_def,
    resolve env (td_name d) env_key = Some (spec, function_def).
Proof.
  intros Hfetched Hreply Hin Hname.
  rewrite list_functions_fetched, Hfetched in Hreply. simpl in Hreply.
  injection Hreply as <-.
  unfold build_registry in Hin. rewrite fold_register_path in Hin.
  apply in_map_iff in Hin as ([k d'] & Hd & Hin). simpl in Hd. subst d'.
  apply fold_add_entry_elim in Hin as [[] | ([[path method] op] & He & _ & ->)].
  apply eligible_operations_in in He as (item & Hpath & Hslot & Hsup & _).
  destruct (find_function_complete env (tool_name env method path) 0
              (default [] (spec_paths spec)) path method item op
              Hpath Hslot Hsup eq_refl) as [fd Hfd].
  exists fd. now apply resolve_intro.
Qed.

(** C1.  The code at the failing input: with the whitelist [/a_b] and a
    document whose paths [/a/b] and [/a_b], in this order, give their GET
    operations the same name, [list_functions] lists that name (for [/a_b]),
    and [call_function] answers it with the access-denied error object and
    sends nothing, because its lookup stops at [/a/b]. *)
Theorem listed_name_denied :
  let env := sample_env (Some ["/a_b"]) (Some colliding_paths) in
  (exists tool,
      reply (list_functions env "OPENAPI_SPEC_URL") = ToolList [tool] /\
      td_name tool = "get__a_b" /\
      td_path tool = "/a_b") /\
  (exists spec function_def,
      resolve env "get__a_b" "OPENAPI_SPEC_URL" = Some (spec, function_def) /\
      fd_path function_def = "/a/b") /\
  reply (call_function env "get__a_b" None "OPENAPI_SPEC_URL")
    = ErrorObject "Access to function 'get__a_b' is not allowed" /\
  sent (call_function env "get__a_b" None "OPENAPI_SPEC_URL") = [].
Proof.
  split; [eexists; repeat split; vm_compute; reflexivity|].
  split; [eexists _, _; split; vm_compute; reflexivity|].
  split; vm_compute; reflexivity.
Qed.

(** * Further properties of the module *)

(** ** Replies and requests of [call_function] *)

Lemma dispatch_reply_cases (env : Env) (function_name : string) (spec : Spec)
    (function_def : FunctionDef) (parameters : option (gmap string scalar)) :
  let out := dispatch env function_name spec function_def parameters in
  (sent out = [] /\ exists msg, reply out = ErrorObject msg) \/
  (exists request,
      sent out = [request] /\
      reply out
        = match http env request with
          | inl text => ResponseText text
          | inr failure => ErrorObject ("API request failed: " +:+ failure)
          end).
Proof.
  unfold dispatch; cbv zeta.
  destruct (is_tool_whitelisted env (fd_path function_def)); cbn [negb];
    [|left; eauto].
  destruct (build_base_url env _) as [base|]; [|left; eauto].
  destruct (Py.truthy_str base); cbn [negb]; [|left; eauto].
  match goal with
  | |- context [build_request ?m ?p ?b ?o ?h ?q] =>
      destruct (build_request m p b o h q) as [msg|request]
  end; [left; eauto|].
  right. exists request. destruct (http env request); auto.
Qed.

(** X1.  [call_function] sends at most one request.  When it sends none,
    the reply is an error object; when it sends one, the reply is the
    response text as it came, or the error object that carries the text of
    the request failure. *)
Theorem call_function_request_discipline (env : Env)
    (function_name env_key : string) (parameters : option (gmap string scalar)) :
  let out := call_function env function_name parameters env_key in
  (sent out = [] /\ exists msg, reply out = ErrorObject msg) \/
  (exists request,
      sent out = [request] /\
      reply out
        = match http env request with
          | inl text => ResponseText text
          | inr failure => ErrorObject ("API request failed: " +:+ failure)
          end).
Proof.
  cbv zeta.
  destruct (resolve env function_name env_key) as [[spec fd]|] eqn:Hres.
  - rewrite (call_function_resolved _ _ _ parameters _ _ Hres).
    apply dispatch_reply_cases.
  - left. now apply call_function_unresolved.
Qed.

(** X2.  The guards of [call_function] come in a fixed order and stop the
    call before anything else is looked at: an empty name is refused
    whatever the environment; with a name, a missing or empty location is
    reported whatever the Spec Accessor would return; with a location, a
    failed fetch is reported; and none of these sends a request or holds a
    document. *)
Theorem call_function_guards (env : Env) (function_name env_key : string)
    (parameters : option (gmap string scalar)) :
  let out := call_function env function_name parameters env_key in
  (function_name = "" ->
   out = mkOutcome (ErrorObject "function_name is required") [] None) /\
  (function_name <> "" ->
   spec_location env env_key = None \/ spec_location env env_key = Some "" ->
   out = mkOutcome (ErrorObject "OPENAPI_SPEC_URL is not configured") [] None) /\
  (function_name <> "" ->
   forall spec_url,
     spec_location env env_key = Some spec_url ->
     spec_url <> "" ->
     fetch_openapi_spec env spec_url = None ->
     out = mkOutcome
             (ErrorObject "Failed to fetch or parse the OpenAPI specification")
             [] None).
Proof.
  cbv zeta. unfold call_function. split; [|split].
  - intros ->. reflexivity.
  - intros Hname%truthy_str_true [Hloc|Hloc]; rewrite Hname, Hloc; reflexivity.
  - intros Hname%truthy_str_true url Hloc Hurl%truthy_str_true Hfetch.
    rewrite Hname, Hloc; cbn [negb]. rewrite Hurl; cbn [negb].
    now rewrite Hfetch.
Qed.

Lemma call_function_guards_witness :
  call_function (sample_env None (Some items_paths)) "" None "OPENAPI_SPEC_URL"
    = mkOutcome (ErrorObject "function_name is required") [] None.
Proof.
  destruct (call_function_guards (sample_env None (Some items_paths)) ""
              "OPENAPI_SPEC_URL" None) as [Hempty _].
  now apply Hempty.
Defined.

(** X3.  Without a usable base URL (none, or an empty one) a call that
    resolves to an operation on a whitelisted path returns the error object
    about the base URL and sends nothing, whatever the parameters are. *)
Theorem no_base_url_no_request (env : Env) (function_name env_key : string)
    (parameters : option (gmap string scalar)) (spec : Spec)
    (function_def : FunctionDef) :
  resolve env function_name env_key = Some (spec, function_def) ->
  is_tool_whitelisted env (fd_path function_def) = true ->
  build_base_url env
    (store_method (fd_ref function_def) (fd_method function_def) spec) = None \/
  build_base_url env
    (store_method (fd_ref function_def) (fd_method function_def) spec) = Some "" ->
  reply (call_function env function_name parameters env_key)
    = ErrorObject "No base URL defined in spec or SERVER_URL_OVERRIDE" /\
  sent (call_function env function_name parameters env_key) = [].
Proof.
  intros Hres Hw Hbase.
  rewrite (call_function_resolved _ _ _ parameters _ _ Hres).
  unfold dispatch; cbv zeta. rewrite Hw; cbn [negb].
  destruct Hbase as [-> | ->]; split; reflexivity.
Qed.

Lemma no_base_url_no_request_witness :
  let env :=
    {| environ := {[ "OPENAPI_SPEC_URL" := "http://spec.test/openapi.json" ]};
       fetch_openapi_spec := fun _ =>
         Some {| spec_paths := Some items_paths; spec_servers := [] |};
       get_tool_prefix := None;
       normalize_tool_name := sample_normalize;
       is_tool_whitelisted := fun _ => true;
       handle_auth := fun _ => [];
       strip_param := None;
       build_base_url := fun spec => head (spec_servers spec);
       http := fun _ => inl "" |} in
  reply (call_function env "post__items" None "OPENAPI_SPEC_URL")
    = ErrorObject "No base URL defined in spec or SERVER_URL_OVERRIDE".
Proof.
  intros env.
  apply (no_base_url_no_request env "post__items" "OPENAPI_SPEC_URL" None
           {| spec_paths := Some items_paths; spec_servers := [] |}
           {| fd_path := "/items"; fd_method := "POST"; fd_ref := (1, 0);
              fd_operation := plain_operation None |}).
  - vm_compute. reflexivity.
  - reflexivity.
  - left. reflexivity.
Defined.

Lemma req_headers_place (method api_url : string)
    (headers : list (string * string)) (parameters : gmap string scalar) :
  req_headers (place_parameters method api_url headers parameters) = headers.
Proof. unfold place_parameters. now destruct (String.eqb method "GET"). Qed.

(** X4.  The headers of the request: for [GET] they are the headers of the
    Auth Resolver as they are; for any other method they carry
    [Content-Type: application/json], and every other header is the one of
    the Auth Resolver. *)
Theorem request_headers (env : Env) (function_name env_key : string)
    (parameters : option (gmap string scalar)) (spec : Spec)
    (function_def : FunctionDef) (request : Request) :
  resolve env function_name env_key = Some (spec, function_def) ->
  sent (call_function env function_name parameters env_key) = [request] ->
  let auth :=
    handle_auth env
      (set_method (fd_method function_def) (fd_operation function_def)) in
  (fd_method function_def = "GET" -> req_headers request = auth) /\
  (fd_method function_def <> "GET" ->
   dict_get "Content-Type" (req_headers request) = Some "application/json" /\
   forall k, k <> "Content-Type" ->
             dict_get k (req_headers request) = dict_get k auth).
Proof.
  intros Hres Hsent auth.
  destruct (call_function_sent _ _ _ _ _ _ _ Hres Hsent)
    as (base & sanitized & _ & _ & _ & _ & ->).
  rewrite req_headers_place. unfold dispatch_headers. fold auth. split.
  - intros ->. reflexivity.
  - intros Hne%String.eqb_neq. rewrite Hne. split.
    + now rewrite dict_get_set, String.eqb_refl.
    + intros k Hk. rewrite dict_get_set.
      apply not_eq_sym, String.eqb_neq in Hk. now rewrite Hk.
Qed.

Lemma request_headers_witness :
  exists request,
    sent (call_function (sample_env None (Some items_paths)) "post__items" None
            "OPENAPI_SPEC_URL") = [request] /\
    dict_get "Content-Type" (req_headers request) = Some "application/json".
Proof.
  pose (request :=
          {| req_method := "POST"; req_url := "http://api.test/v1/items";
             req_headers := [("Content-Type", "application/json")];
             req_params := None; req_json := Some (∅ : gmap string scalar) |}).
  assert (Hsent : sent (call_function (sample_env None (Some items_paths))
                          "post__items" None "OPENAPI_SPEC_URL") = [request])
    by (vm_compute; reflexivity).
  exists request. split; [exact Hsent|].
  destruct (request_headers (sample_env None (Some items_paths)) "post__items"
              "OPENAPI_SPEC_URL" None
              {| spec_paths := Some items_paths;
                 spec_servers := ["http://api.test/v1/"] |}
              {| fd_path := "/items"; fd_method := "POST"; fd_ref := (1, 0);
                 fd_operation := plain_operation None |}
              request) as [_ Hpost].
  - vm_compute. reflexivity.
  - exact Hsent.
  - destruct Hpost as [Hct _]; [discriminate | exact Hct].
Defined.

(** ** The parameters on their way to the request *)

Lemma missing_required_iff (operation : Operation)
    (parameters : gmap string scalar) (n : string) :
  In n (missing_required operation parameters) <->
  exists param,
    In param (default [] (op_parameters operation)) /\
    p_name param = n /\
    p_in param = Some "path" /\
    p_required param = Some true /\
    parameters !! n = None.
Proof.
  unfold missing_required. rewrite in_map_iff. split.
  - intros (param & Hname & Hin). apply filter_In in Hin as [Hin Hok].
    apply andb_true_iff in Hok as [Hok Habsent].
    apply andb_true_iff in Hok as [Hpath Hreq].
    exists param. split; [exact Hin|]. split; [exact Hname|].
    split; [now apply is_path_param_spec|].
    split; [now apply param_required_spec|].
    apply negb_true_iff, bool_decide_eq_false in Habsent.
    rewrite <- Hname. destruct (parameters !! p_name param) eqn:Hl; [|reflexivity].
    destruct Habsent. eauto.
  - intros (param & Hin & Hname & Hpath & Hreq & Habsent).
    exists param. split; [exact Hname|]. apply filter_In. split; [exact Hin|].
    apply is_path_param_spec in Hpath. apply param_required_spec in Hreq.
    rewrite Hpath, Hreq, Hname, Habsent. reflexivity.
Qed.

Lemma missing_required_declared (operation : Operation)
    (parameters : gmap string scalar) (n : string) :
  In n (missing_required operation parameters) ->
  In n (path_params_in_openapi operation).
Proof.
  intros (param & Hin & Hname & Hpath & _)%missing_required_iff.
  unfold path_params_in_openapi. apply in_map_iff. exists param.
  split; [exact Hname|]. apply filter_In. split; [exact Hin|].
  now apply is_path_param_spec.
Qed.

(** [build_request] on a mapping: the error when a required path parameter
    is missing, the request otherwise. *)
Lemma build_request_cases (method path base_url : string) (operation : Operation)
    (headers : list (string * string)) (parameters : gmap string scalar) :
  build_request method path base_url operation headers (Some parameters)
    = match missing_required operation (drop_stream parameters) with
      | [] =>
          inr (place_parameters method
                 (fst (substitute_path_params (path_params_in_openapi operation)
                         (url_template base_url path) (drop_stream parameters)))
                 headers (remaining_parameters operation parameters))
      | missing =>
          inl ("Missing required path parameters: " +:+ Py.str_list missing)
      end.
Proof.
  unfold build_request, remaining_parameters. fold (url_template base_url path).
  rewrite <- (substitute_path_params_remaining _ (url_template base_url path)).
  destruct (path_params_in_openapi operation) as [|name names] eqn:Hnames.
  - destruct (missing_required operation (drop_stream parameters)) as [|m ms] eqn:Hm;
      [reflexivity|].
    assert (H : In m (path_params_in_openapi operation)).
    { apply (missing_required_declared _ (drop_stream parameters)).
      rewrite Hm. now left. }
    rewrite Hnames in H. destruct H.
  - destruct (missing_required operation (drop_stream parameters)); [|reflexivity].
    now destruct (substitute_path_params (name :: names) _ _).
Qed.

Lemma dispatch_past_checks (env : Env) (function_name : string) (spec : Spec)
    (function_def : FunctionDef) (parameters : option (gmap string scalar))
    (base_url : string) :
  is_tool_whitelisted env (fd_path function_def) = true ->
  build_base_url env
    (store_method (fd_ref function_def) (fd_method function_def) spec)
    = Some base_url ->
  base_url <> "" ->
  dispatch env function_name spec function_def parameters
    = let spec' :=
        store_method (fd_ref function_def) (fd_method function_def) spec in
      match build_request (fd_method function_def) (fd_path function_def) base_url
              (set_method (fd_method function_def) (fd_operation function_def))
              (dispatch_headers env function_def)
              (strip_parameters env parameters) with
      | inl message => mkOutcome (ErrorObject message) [] (Some spec')
      | inr request =>
          match http env request with
          | inl text => mkOutcome (ResponseText text) [request] (Some spec')
          | inr failure =>
              mkOutcome (ErrorObject ("API request failed: " +:+ failure))
                [request] (Some spec')
          end
      end.
Proof.
  intros Hw Hbase Hne%truthy_str_true.
  unfold dispatch; cbv zeta. fold (dispatch_headers env function_def).
  rewrite Hw, Hbase; cbn [negb]. rewrite Hne; cbn [negb]. reflexivity.
Qed.

(** X5.  Past the whitelist and the base URL, the request is sent exactly
    when no required path parameter is missing from the parameters as they
    stand after sanitizing; otherwise the error object lists the missing
    names and nothing is sent.  A name is listed exactly when it is the name
    of a declared path parameter that is required and absent: a parameter
    that was passed, or that is optional, is never listed. *)
Theorem request_sent_iff_none_missing (env : Env) (function_name env_key : string)
    (parameters : option (gmap string scalar)) (spec : Spec)
    (function_def : FunctionDef) (base_url : string)
    (sanitized : gmap string scalar) :
  resolve env function_name env_key = Some (spec, function_def) ->
  is_tool_whitelisted env (fd_path function_def) = true ->
  build_base_url env
    (store_method (fd_ref function_def) (fd_method function_def) spec)
    = Some base_url ->
  base_url <> "" ->
  strip_parameters env parameters = Some sanitized ->
  let out := call_function env function_name parameters env_key in
  let missing :=
    missing_required (fd_operation function_def) (drop_stream sanitized) in
  (forall n,
      In n missing <->
      exists param,
        In param (default [] (op_parameters (fd_operation function_def))) /\
        p_name param = n /\
        p_in param = Some "path" /\
        p_required param = Some true /\
        drop_stream sanitized !! n = None) /\
  (missing = [] -> exists request, sent out = [request]) /\
  (missing <> [] ->
   reply out
     = ErrorObject ("Missing required path parameters: " +:+ Py.str_list missing) /\
   sent out = []).
Proof.
  intros Hres Hw Hbase Hne Hstrip out missing. subst out.
  split; [intros n; apply missing_required_iff|].
  rewrite (call_function_resolved _ _ _ parameters _ _ Hres).
  rewrite (dispatch_past_checks _ _ _ _ _ _ Hw Hbase Hne), Hstrip.
  rewrite build_request_cases. cbv zeta.
  change (missing_required
            (set_method (fd_method function_def) (fd_operation function_def))
            (drop_stream sanitized)) with missing.
  destruct missing as [|m ms]; split.
  - intros _. eexists. destruct (http env _); reflexivity.
  - congruence.
  - discriminate.
  - intros _. split; reflexivity.
Qed.

Lemma request_sent_iff_none_missing_witness :
  let env := sample_env None (Some items_paths) in
  exists request,
    sent (call_function env "get__items__id_" (Some {[ "id" := SInt 7 ]})
            "OPENAPI_SPEC_URL") = [request].
Proof.
  intros env.
  destruct (request_sent_iff_none_missing env "get__items__id_" "OPENAPI_SPEC_URL"
              (Some {[ "id" := SInt 7 ]})
              {| spec_paths := Some items_paths;
                 spec_servers := ["http://api.test/v1/"] |}
              {| fd_path := "/items/{id}"; fd_method := "GET"; fd_ref := (0, 0);
                 fd_operation :=
                   plain_operation (Some [path_parameter "id" (Some true)]) |}
              "http://api.test/v1/" {[ "id" := SInt 7 ]})
    as (_ & Hsent & _).
  - vm_compute. reflexivity.
  - reflexivity.
  - reflexivity.
  - discriminate.
  - vm_compute. reflexivity.
  - apply Hsent. vm_compute. reflexivity.
Defined.

(** X6.  Nothing is invented or altered on the way to the request: an
    entry of the query parameters or of the JSON body is an entry of the
    sanitized parameters, with the same value, that is not a declared path
    parameter and not a truthy [stream]; and every such entry of the
    sanitized parameters is forwarded. *)
Theorem parameters_forwarded_unaltered (env : Env) (function_name env_key : string)
    (parameters : option (gmap string scalar)) (spec : Spec)
    (function_def : FunctionDef) (request : Request)
    (sanitized forwarded : gmap string scalar) :
  resolve env function_name env_key = Some (spec, function_def) ->
  sent (call_function env function_name parameters env_key) = [request] ->
  strip_parameters env parameters = Some sanitized ->
  req_params request = Some forwarded \/ req_json request = Some forwarded ->
  forall k v,
    forwarded !! k = Some v <->
    sanitized !! k = Some v /\
    ~ In k (path_params_in_openapi (fd_operation function_def)) /\
    (k = "stream" -> truthy v = false).
Proof.
  intros Hres Hsent Hstrip Hforwarded k v.
  destruct (call_function_sent _ _ _ _ _ _ _ Hres Hsent)
    as (base & sanitized' & _ & _ & _ & Hstrip' & ->).
  rewrite Hstrip in Hstrip'. injection Hstrip' as <-.
  apply place_parameters_forwarded in Hforwarded. subst forwarded.
  rewrite remaining_parameters_lookup, drop_stream_lookup.
  destruct (decide (k ∈ path_params_in_openapi (fd_operation function_def)))
    as [Hin|Hnot].
  - split; [discriminate|]. intros (_ & Hno & _). destruct Hno.
    now apply list_elem_of_In.
  - rewrite list_elem_of_In in Hnot.
    destruct (sanitized !! k) as [value|]; [|split; [discriminate|intros [H _]; discriminate]].
    destruct (String.eqb k "stream") eqn:Hk; simpl.
    + apply String.eqb_eq in Hk.
      destruct (truthy value) eqn:Ht.
      * split; [discriminate|]. intros ([= <-] & _ & Hfalse).
        specialize (Hfalse Hk). congruence.
      * split; [intros [= <-]; auto | intros ([= <-] & _); reflexivity].
    + apply String.eqb_neq in Hk.
      split; [intros [= <-]; repeat split; auto; contradiction
             | intros ([= <-] & _); reflexivity].
Qed.

Lemma parameters_forwarded_unaltered_witness :
  let env := sample_env None (Some items_paths) in
  let given : gmap string scalar :=
    <["stream" := SBool true]> (<["id" := SInt 42]> {[ "q" := SStr "x" ]}) in
  exists request query,
    sent (call_function env "get__items__id_" (Some given) "OPENAPI_SPEC_URL")
      = [request] /\
    req_params request = Some query /\
    query !! "q" = Some (SStr "x").
Proof.
  intros env given.
  pose (query := ({[ "q" := SStr "x" ]} : gmap string scalar)).
  pose (request :=
          {| req_method := "GET"; req_url := "http://api.test/v1/items/42";
             req_headers := []; req_params := Some query; req_json := None |}).
  assert (Hsent : sent (call_function env "get__items__id_" (Some given)
                          "OPENAPI_SPEC_URL") = [request])
    by (vm_compute; reflexivity).
  exists request, query. split; [exact Hsent|]. split; [reflexivity|].
  apply (parameters_forwarded_unaltered env "get__items__id_" "OPENAPI_SPEC_URL"
           (Some given)
           {| spec_paths := Some items_paths;
              spec_servers := ["http://api.test/v1/"] |}
           {| fd_path := "/items/{id}"; fd_method := "GET"; fd_ref := (0, 0);
              fd_operation :=
                plain_operation (Some [path_parameter "id" (Some true)]) |}
           request given query).
  - vm_compute. reflexivity.
  - exact Hsent.
  - vm_compute. reflexivity.
  - left. reflexivity.
  - split; [vm_compute; reflexivity|]. split; [|discriminate].
    simpl. intros [H|[]]. discriminate.
Defined.

(** ** The URL of the request *)

Lemma substitute_path_params_none (names : list string) (api_url : string)
    (parameters : gmap string scalar) :
  (forall n, In n names -> parameters !! n = None) ->
  substitute_path_params names api_url parameters = (api_url, parameters).
Proof.
  induction names as [|name names IH]; intros Hnone; simpl; [reflexivity|].
  rewrite (Hnone name) by now left.
  apply IH. intros n Hn. apply Hnone. now right.
Qed.

Lemma replace_absent (c0 : ascii) (old' new s : string) :
  Py.contains_char c0 s = false -> Py.replace (String c0 old') new s = s.
Proof.
  unfold Py.replace, Py.contains_char.
  induction s as [|c s IH]; intros Hfree; [reflexivity|].
  simpl in Hfree. apply orb_false_iff in Hfree as [Hc Hs].
  simpl. destruct (ascii_dec c0 c) as [->|_].
  - rewrite Ascii.eqb_refl in Hc. discriminate.
  - f_equal. apply IH, Hs.
Qed.

(** X7.  When none of the declared path parameters is among the
    parameters and none of them is required (an optional one that was left
    out, say), a call that is past the whitelist and has a base URL sends
    its request, and sends it to the joined URL as it is, with the
    placeholders still in it. *)
Theorem absent_path_parameters_keep_url (env : Env)
    (function_name env_key : string) (parameters : option (gmap string scalar))
    (spec : Spec) (function_def : FunctionDef) (base_url : string)
    (sanitized : gmap string scalar) :
  resolve env function_name env_key = Some (spec, function_def) ->
  is_tool_whitelisted env (fd_path function_def) = true ->
  build_base_url env
    (store_method (fd_ref function_def) (fd_method function_def) spec)
    = Some base_url ->
  base_url <> "" ->
  strip_parameters env parameters = Some sanitized ->
  (forall n, In n (path_params_in_openapi (fd_operation function_def)) ->
             drop_stream sanitized !! n = None) ->
  (forall param,
      In param (default [] (op_parameters (fd_operation function_def))) ->
      p_in param = Some "path" ->
      p_required param <> Some true) ->
  exists request,
    sent (call_function env function_name parameters env_key) = [request] /\
    req_url request = url_template base_url (fd_path function_def) /\
    req_method request = fd_method function_def.
Proof.
  intros Hres Hw Hbase Hne Hstrip Hnone Hoptional.
  assert (Hmissing : missing_required (fd_operation function_def)
                       (drop_stream sanitized) = []).
  { destruct (missing_required (fd_operation function_def) (drop_stream sanitized))
      as [|m ms] eqn:Hm; [reflexivity|].
    assert (Hin : In m (missing_required (fd_operation function_def)
                          (drop_stream sanitized))) by (rewrite Hm; now left).
    apply missing_required_iff in Hin as (param & Hin & _ & Hpath & Hreq & _).
    now destruct (Hoptional param Hin Hpath). }
  rewrite (call_function_resolved _ _ _ parameters _ _ Hres).
  rewrite (dispatch_past_checks _ _ _ _ _ _ Hw Hbase Hne), Hstrip.
  rewrite build_request_cases. cbv zeta.
  change (missing_required
            (set_method (fd_method function_def) (fd_operation function_def))
            (drop_stream sanitized))
    with (missing_required (fd_operation function_def) (drop_stream sanitized)).
  rewrite Hmissing.
  change (path_params_in_openapi
            (set_method (fd_method function_def) (fd_operation function_def)))
    with (path_params_in_openapi (fd_operation function_def)).
  rewrite (substitute_path_params_none _ _ _ Hnone). cbn [fst].
  eexists. split; [destruct (http env _); reflexivity|].
  split; [apply req_url_place | apply req_method_place].
Qed.

Lemma absent_path_parameters_keep_url_witness :
  exists request,
    sent (call_function (sample_env None (Some feeds_paths))
            "get__feeds__stream_" None "OPENAPI_SPEC_URL") = [request] /\
    req_url request = "http://api.test/v1/feeds/{stream}".
Proof.
  destruct (absent_path_parameters_keep_url (sample_env None (Some feeds_paths))
              "get__feeds__stream_" "OPENAPI_SPEC_URL" None
              {| spec_paths := Some feeds_paths;
                 spec_servers := ["http://api.test/v1/"] |}
              {| fd_path := "/feeds/{stream}"; fd_method := "GET"; fd_ref := (0, 0);
                 fd_operation :=
                   plain_operation (Some [path_parameter "stream" None]) |}
              "http://api.test/v1/" ∅)
    as (request & Hsent & Hurl & _).
  - vm_compute. reflexivity.
  - reflexivity.
  - reflexivity.
  - discriminate.
  - reflexivity.
  - intros n _. vm_compute. reflexivity.
  - intros param [<-|[]] _. discriminate.
  - exists request. split; [exact Hsent|]. rewrite Hurl. vm_compute. reflexivity.
Defined.

(** X8.  With one declared path parameter, present with value [v], and a
    joined URL that reads [a], the placeholder, [b], with no opening brace
    in [a] nor in [b], the request goes to [a], the string form of [v],
    [b]. *)
Theorem single_path_parameter_url (env : Env) (function_name env_key : string)
    (parameters : option (gmap string scalar)) (spec : Spec)
    (function_def : FunctionDef) (request : Request) (base_url : string)
    (sanitized : gmap string scalar) (name : string) (value : scalar)
    (a b : string) :
  resolve env function_name env_key = Some (spec, function_def) ->
  sent (call_function env function_name parameters env_key) = [request] ->
  build_base_url env
    (store_method (fd_ref function_def) (fd_method function_def) spec)
    = Some base_url ->
  strip_parameters env parameters = Some sanitized ->
  path_params_in_openapi (fd_operation function_def) = [name] ->
  drop_stream sanitized !! name = Some value ->
  url_template base_url (fd_path function_def) = a +:+ placeholder name +:+ b ->
  Py.contains_char "{" a = false ->
  Py.contains_char "{" b = false ->
  req_url request = a +:+ py_str value +:+ b.
Proof.
  intros Hres Hsent Hbase Hstrip Hnames Hvalue Hshape Ha Hb.
  destruct (call_function_sent _ _ _ _ _ _ _ Hres Hsent)
    as (base & sanitized' & _ & Hbase' & _ & Hstrip' & ->).
  rewrite Hstrip in Hstrip'. injection Hstrip' as <-.
  rewrite Hbase in Hbase'. injection Hbase' as <-.
  rewrite req_url_place, Hnames. cbn [substitute_path_params].
  rewrite Hvalue. cbn [fst]. rewrite Hshape.
  change (placeholder name) with (String "{" (name +:+ "}")).
  rewrite replace_first by exact Ha.
  now rewrite replace_absent.
Qed.

Lemma single_path_parameter_url_witness :
  exists request,
    sent (call_function (sample_env None (Some items_paths)) "get__items__id_"
            (Some {[ "id" := SInt 42 ]}) "OPENAPI_SPEC_URL") = [request] /\
    req_url request = "http://api.test/v1/items/" +:+ "42" +:+ "".
Proof.
  pose (request :=
          {| req_method := "GET"; req_url := "http://api.test/v1/items/42";
             req_headers := []; req_params := Some (∅ : gmap string scalar);
             req_json := None |}).
  assert (Hsent : sent (call_function (sample_env None (Some items_paths))
                          "get__items__id_" (Some {[ "id" := SInt 42 ]})
                          "OPENAPI_SPEC_URL") = [request])
    by (vm_compute; reflexivity).
  exists request. split; [exact Hsent|].
  apply (single_path_parameter_url (sample_env None (Some items_paths))
           "get__items__id_" "OPENAPI_SPEC_URL" (Some {[ "id" := SInt 42 ]})
           {| spec_paths := Some items_paths;
              spec_servers := ["http://api.test/v1/"] |}
           {| fd_path := "/items/{id}"; fd_method := "GET"; fd_ref := (0, 0);
              fd_operation :=
                plain_operation (Some [path_parameter "id" (Some true)]) |}
           request "http://api.test/v1/" {[ "id" := SInt 42 ]} "id" (SInt 42)
           "http://api.test/v1/items/" "").
  - vm_compute. reflexivity.
  - exact Hsent.
  - reflexivity.
  - reflexivity.
  - reflexivity.
  - vm_compute. reflexivity.
  - reflexivity.
  - reflexivity.
  - reflexivity.
Defined.

Lemma append_nil_r (s : string) : s +:+ "" = s.
Proof. induction s as [|c s IH]; [reflexivity|]. now rewrite append_cons, IH. Qed.

Lemma append_assoc (s1 s2 s3 : string) : (s1 +:+ s2) +:+ s3 = s1 +:+ s2 +:+ s3.
Proof.
  induction s1 as [|c s1 IH]; [reflexivity|]. now rewrite !append_cons, IH.
Qed.

Lemma lstrip_split (s : string) :
  exists slashes,
    s = slashes +:+ Py.lstrip "/" s /\
    only_slashes slashes = true /\
    forall rest, Py.lstrip "/" s <> "/" +:+ rest.
Proof.
  induction s as [|c s (slashes & Hs & Honly & Hfirst)].
  - exists "". repeat split. intros rest. discriminate.
  - simpl. destruct (Ascii.eqb c "/") eqn:Hc.
    + apply Ascii.eqb_eq in Hc. subst c.
      exists ("/" +:+ slashes). split; [|split; [exact Honly | exact Hfirst]].
      rewrite append_assoc, !append_cons, append_nil_l. now f_equal.
    + exists "". split; [reflexivity|]. split; [reflexivity|].
      intros rest. rewrite append_cons, append_nil_l. intros [= ->].
      rewrite Ascii.eqb_refl in Hc. discriminate.
Qed.

Lemma rstrip_split (s : string) :
  exists slashes,
    s = Py.rstrip "/" s +:+ slashes /\
    only_slashes slashes = true /\
    forall rest, Py.rstrip "/" s <> rest +:+ "/".
Proof.
  induction s as [|c s (slashes & Hs & Honly & Hlast)].
  - exists "". repeat split. intros [|x rest]; discriminate.
  - simpl. destruct (Py.rstrip "/" s) as [|r0 r] eqn:Hr.
    + rewrite append_nil_l in Hs. subst slashes.
      destruct (Ascii.eqb c "/") eqn:Hc.
      * apply Ascii.eqb_eq in Hc. subst c.
        exists (String "/" s). split; [reflexivity|].
        split; [exact Honly|]. intros [|x rest]; discriminate.
      * exists s. split; [reflexivity|]. split; [exact Honly|].
        intros [|x rest]; rewrite ?append_cons, ?append_nil_l.
        -- intros [= ->]. rewrite Ascii.eqb_refl in Hc. discriminate.
        -- intros [= _ H]. destruct rest; discriminate.
    + exists slashes. split; [|split; [exact Honly|]].
      * rewrite append_cons. now f_equal.
      * intros [|x rest]; rewrite ?append_cons, ?append_nil_l.
        -- discriminate.
        -- intros [= _ H]. now apply (Hlast rest).
Qed.

(** X9.  The joined URL has exactly one slash at the seam: it is the base
    URL without its trailing slashes, a slash, and the path without its
    leading slashes; what is left of the base URL does not end with a slash
    and what is left of the path does not begin with one. *)
Theorem url_template_seam (base_url path : string) :
  exists left_part right_part trailing leading,
    base_url = left_part +:+ trailing /\
    path = leading +:+ right_part /\
    only_slashes trailing = true /\
    only_slashes leading = true /\
    (forall rest, left_part <> rest +:+ "/") /\
    (forall rest, right_part <> "/" +:+ rest) /\
    url_template base_url path = left_part +:+ "/" +:+ right_part.
Proof.
  destruct (rstrip_split base_url) as (trailing & Hb & Htrailing & Hlast).
  destruct (lstrip_split path) as (leading & Hp & Hleading & Hfirst).
  exists (Py.rstrip "/" base_url), (Py.lstrip "/" path), trailing, leading.
  repeat split; auto.
Qed.

(** ** The lookup of [call_function], as an enumeration *)

Lemma find_split {A : Type} (f : A -> bool) (l : list A) (x : A) :
  find f l = Some x ->
  exists pre post,
    l = pre ++ x :: post /\ f x = true /\ forall y, In y pre -> f y = false.
Proof.
  induction l as [|a l IH]; simpl; [discriminate|].
  destruct (f a) eqn:Hfa.
  - intros [= <-]. exists [], l. repeat split; auto. intros y [].
  - intros H. destruct (IH H) as (pre & post & -> & Hx & Hpre).
    exists (a :: pre), post. repeat split; auto.
    intros y [<-|Hy]; auto.
Qed.

Section Lookup.
Variable env : Env.
Variable function_name : string.

Let bears (e : string * string * Operation) : bool :=
  String.eqb (entry_name env e) function_name.

Lemma find_in_item_enumerates (path : string) (j : nat) (path_item : PathItem) :
  match find_in_item env function_name path j path_item with
  | Some (_, method, operation) =>
      exists declared,
        find bears
          (map (fun slot => (path, fst slot, snd slot))
             (List.filter (fun slot => method_supported (fst slot)) path_item))
          = Some (path, declared, operation) /\
        method = Py.upper declared
  | None =>
      find bears
        (map (fun slot => (path, fst slot, snd slot))
           (List.filter (fun slot => method_supported (fst slot)) path_item))
        = None
  end.
Proof.
  revert j. induction path_item as [|[declared op] rest IH]; intros j; simpl;
    [reflexivity|].
  destruct (method_supported declared) eqn:Hsup; simpl; [|apply IH].
  unfold bears at 1 3. unfold entry_name; simpl.
  destruct (String.eqb (tool_name env declared path) function_name); [eauto|].
  apply IH.
Qed.

Lemma find_function_enumerates (i : nat) (paths : list (string * PathItem)) :
  match find_function env function_name i paths with
  | Some function_def =>
      exists declared,
        find bears (supported_operations paths)
          = Some (fd_path function_def, declared, fd_operation function_def) /\
        fd_method function_def = Py.upper declared
  | None => find bears (supported_operations paths) = None
  end.
Proof.
  revert i. induction paths as [|[path item] rest IH]; intros i; simpl;
    [reflexivity|].
  rewrite find_app_first.
  pose proof (find_in_item_enumerates path 0 item) as Hitem.
  destruct (find_in_item env function_name path 0 item) as [[[j m] op]|].
  - destruct Hitem as (declared & -> & ->). simpl. eauto.
  - rewrite Hitem. apply IH.
Qed.

End Lookup.

(** X10.  [call_function] looks the name up among the operations under one
    of the five methods, in document order, and takes the first that bears
    it: when none bears the name the reply is that the function was not
    found, nothing is sent and the document is untouched; when some operation
    bears it, the call resolves to the first such operation, whatever comes
    after it. *)
Theorem lookup_first_match (env : Env) (function_name env_key : string)
    (parameters : option (gmap string scalar)) (spec : Spec) :
  function_name <> "" ->
  fetched env env_key = Some spec ->
  let operations := supported_operations (default [] (spec_paths spec)) in
  ((forall e, In e operations -> entry_name env e <> function_name) ->
   call_function env function_name parameters env_key
     = mkOutcome (ErrorObject ("Function '" +:+ function_name +:+ "' not found"))
         [] (Some spec)) /\
  (forall e,
      In e operations ->
      entry_name env e = function_name ->
      exists function_def pre declared post,
        resolve env function_name env_key = Some (spec, function_def) /\
        operations
          = pre ++ (fd_path function_def, declared, fd_operation function_def)
                :: post /\
        fd_method function_def = Py.upper declared /\
        tool_name env declared (fd_path function_def) = function_name /\
        forall e', In e' pre -> entry_name env e' <> function_name).
Proof.
  intros Hname Hfetched operations. subst operations.
  pose proof (find_function_enumerates env function_name 0
                (default [] (spec_paths spec))) as Henum.
  split.
  - intros Hnone.
    destruct (find_function env function_name 0 (default [] (spec_paths spec)))
      as [fd|] eqn:Hfind.
    + destruct Henum as (declared & Hfound & _).
      apply find_some in Hfound as [Hin Hbears].
      apply String.eqb_eq in Hbears. now destruct (Hnone _ Hin).
    + unfold call_function, fetched in *.
      apply truthy_str_true in Hname. rewrite Hname; cbn [negb].
      destruct (spec_location env env_key) as [url|]; [|discriminate].
      destruct (Py.truthy_str url); cbn [negb] in *; [|discriminate].
      now rewrite Hfetched, Hfind.
  - intros e Hin Hbears.
    destruct (find_function env function_name 0 (default [] (spec_paths spec)))
      as [fd|] eqn:Hfind.
    + destruct Henum as (declared & Hfound & Hmethod).
      apply find_split in Hfound as (pre & post & Hsplit & Hfd & Hpre).
      exists fd, pre, declared, post.
      split; [now apply resolve_intro|]. split; [exact Hsplit|].
      split; [exact Hmethod|]. split; [now apply String.eqb_eq in Hfd|].
      intros e' He'. apply String.eqb_neq, Hpre, He'.
    + rewrite find_none_iff in Henum. specialize (Henum e Hin).
      apply String.eqb_neq in Henum. contradiction.
Qed.

Lemma lookup_first_match_witness :
  exists function_def,
    resolve (sample_env None (Some colliding_paths)) "get__a_b" "OPENAPI_SPEC_URL"
      = Some ({| spec_paths := Some colliding_paths;
                 spec_servers := ["http://api.test/v1/"] |}, function_def) /\
    fd_path function_def = "/a/b".
Proof.
  destruct (lookup_first_match (sample_env None (Some colliding_paths)) "get__a_b"
              "OPENAPI_SPEC_URL" None
              {| spec_paths := Some colliding_paths;
                 spec_servers := ["http://api.test/v1/"] |})
    as [_ Hsome].
  - discriminate.
  - vm_compute. reflexivity.
  - destruct (Hsome ("/a_b", "get", plain_operation None))
      as (fd & pre & declared & post & Hres & _).
    + simpl. right. left. reflexivity.
    + reflexivity.
    + exists fd. split; [exact Hres|].
      vm_compute in Hres. now injection Hres as <-.
Defined.

(** ** Methods *)

Lemma upper_lower_ascii (c : ascii) :
  Py.upper_ascii (Py.lower_ascii c) = Py.upper_ascii c.
Proof. destruct c as [[] [] [] [] [] [] [] []]; reflexivity. Qed.

Lemma upper_lower (s : string) : Py.upper (Py.lower s) = Py.upper s.
Proof.
  induction s as [|c s IH]; [reflexivity|].
  unfold Py.upper, Py.lower in *. simpl. now rewrite upper_lower_ascii, IH.
Qed.

Lemma upper_supported (method : string) :
  method_supported method = true -> In (Py.upper method) request_methods.
Proof.
  unfold method_supported. intros (m & Hin & Heq%String.eqb_eq)%existsb_exists.
  rewrite <- upper_lower, Heq.
  simpl in Hin. destruct Hin as [<-|[<-|[<-|[<-|[<-|[]]]]]]; simpl; tauto.
Qed.

Lemma method_supported_truthy (method : string) :
  method_supported method = true -> Py.truthy_str method = true.
Proof. destruct method; [discriminate | reflexivity]. Qed.

(** X11.  A request never carries another method than [GET], [POST],
    [PUT], [DELETE] or [PATCH]: the method of the request is the declared
    method in upper case, whatever the case it is declared in. *)
Theorem request_method_supported (env : Env) (function_name env_key : string)
    (parameters : option (gmap string scalar)) (request : Request) :
  sent (call_function env function_name parameters env_key) = [request] ->
  In (req_method request) request_methods.
Proof.
  intros Hsent.
  destruct (resolve env function_name env_key) as [[spec fd]|] eqn:Hres.
  - destruct (call_function_sent _ _ _ _ _ _ _ Hres Hsent)
      as (base & sanitized & _ & _ & _ & _ & ->).
    rewrite req_method_place.
    apply resolve_inv in Hres as (_ & _ & Hfind).
    apply find_function_sound in Hfind
      as (i & j & item & declared & _ & _ & _ & -> & Hsup & _).
    now apply upper_supported.
  - destruct (call_function_unresolved env function_name env_key parameters Hres)
      as [Hnone _].
    rewrite Hnone in Hsent. discriminate.
Qed.

Lemma request_method_supported_witness :
  exists request,
    sent (call_function
            (sample_env None
               (Some [("/items", [("Post", plain_operation None)])]))
            "post__items" None "OPENAPI_SPEC_URL") = [request] /\
    In (req_method request) request_methods.
Proof.
  pose (request :=
          {| req_method := "POST"; req_url := "http://api.test/v1/items";
             req_headers := [("Content-Type", "application/json")];
             req_params := None; req_json := Some (∅ : gmap string scalar) |}).
  assert (Hsent : sent (call_function
                          (sample_env None
                             (Some [("/items", [("Post", plain_operation None)])]))
                          "post__items" None "OPENAPI_SPEC_URL") = [request])
    by (vm_compute; reflexivity).
  exists request. split; [exact Hsent|].
  exact (request_method_supported _ "post__items" "OPENAPI_SPEC_URL" None request
           Hsent).
Defined.

(** ** The listing, in order *)

Section Listing.
Variable env : Env.
Implicit Types (functions : list (string * ToolDescriptor))
  (entries : list (string * string * Operation)).

Lemma fold_add_entry_distinct entries functions :
  List.NoDup (map fst functions ++ map (entry_name env) entries) ->
  fold_left (add_entry env) entries functions
    = functions ++ map (entry_pair env) entries.
Proof.
  revert functions. induction entries as [|e entries IH]; intros functions Hnd;
    simpl.
  - now rewrite app_nil_r.
  - assert (Hfresh : dict_mem (entry_name env e) functions = false).
    { destruct (dict_mem (entry_name env e) functions) eqn:Hmem; [|reflexivity].
      apply dict_mem_keys in Hmem.
      apply NoDup_remove_2 in Hnd. destruct Hnd.
      apply in_or_app. now left. }
    unfold add_entry at 2. rewrite Hfresh.
    rewrite IH.
    + now rewrite <- app_assoc.
    + rewrite map_app, <- app_assoc. exact Hnd.
Qed.

Lemma fold_add_entry_sublist entries functions :
  exists added,
    fold_left (add_entry env) entries functions = functions ++ added /\
    sublist added (map (entry_pair env) entries).
Proof.
  revert functions. induction entries as [|e entries IH]; intros functions; simpl.
  - exists []. split; [now rewrite app_nil_r | constructor].
  - destruct (dict_mem (entry_name env e) functions) eqn:Hmem.
    + assert (Hsame : add_entry env functions e = functions)
        by (unfold add_entry; now rewrite Hmem).
      rewrite Hsame. destruct (IH functions) as (added & Heq & Hsub).
      exists added. split; [exact Heq | now apply sublist_cons].
    + assert (Hnew : add_entry env functions e = functions ++ [entry_pair env e])
        by (unfold add_entry; now rewrite Hmem).
      rewrite Hnew.
      destruct (IH (functions ++ [entry_pair env e])) as (added & Heq & Hsub).
      exists (entry_pair env e :: added).
      split; [now rewrite Heq, <- app_assoc | now apply sublist_skip].
Qed.

End Listing.

Lemma sublist_map {A B : Type} (f : A -> B) (l1 l2 : list A) :
  sublist l1 l2 -> sublist (map f l1) (map f l2).
Proof.
  induction 1; simpl; [constructor | now apply sublist_skip | now apply sublist_cons].
Qed.

(** X12.  The listing follows the document: the descriptors come in the
    order of the enumeration (document order over the whitelisted paths,
    declaration order over the supported methods), some operations left out
    and none moved; and when no two enumerated operations bear the same
    name, none is left out, so that there is one descriptor for each
    enumerated operation. *)
Theorem listing_in_document_order (env : Env) (env_key : string) (spec : Spec) :
  fetched env env_key = Some spec ->
  let entries := eligible_operations env (default [] (spec_paths spec)) in
  exists tools,
    reply (list_functions env env_key) = ToolList tools /\
    sublist tools (map (entry_descriptor env) entries) /\
    (List.NoDup (map (entry_name env) entries) ->
     tools = map (entry_descriptor env) entries).
Proof.
  intros Hfetched entries. subst entries.
  rewrite list_functions_fetched, Hfetched. cbn [reply].
  unfold build_registry. rewrite fold_register_path.
  eexists. split; [reflexivity|]. split.
  - destruct (fold_add_entry_sublist env
                (eligible_operations env (default [] (spec_paths spec))) [])
      as (added & -> & Hsub).
    apply (sublist_map snd) in Hsub. rewrite map_map in Hsub. exact Hsub.
  - intros Hnd. rewrite fold_add_entry_distinct by exact Hnd.
    simpl. now rewrite map_map.
Qed.

Lemma listing_in_document_order_witness :
  reply (list_functions (sample_env None (Some items_paths)) "OPENAPI_SPEC_URL")
    = ToolList
        (map (entry_descriptor (sample_env None (Some items_paths)))
           (eligible_operations (sample_env None (Some items_paths)) items_paths)).
Proof.
  destruct (listing_in_document_order (sample_env None (Some items_paths))
              "OPENAPI_SPEC_URL"
              {| spec_paths := Some items_paths;
                 spec_servers := ["http://api.test/v1/"] |})
    as (tools & Hreply & _ & Hall).
  - vm_compute. reflexivity.
  - rewrite Hreply. f_equal. apply Hall.
    vm_compute. repeat constructor; simpl; intuition discriminate.
Defined.

Lemma prefix_append (p s : string) : String.prefix p (p +:+ s) = true.
Proof. apply prefix_app_self. Qed.

(** X13.  Every listed descriptor is consistent with the document and the
    configuration: its path passes the whitelist, its method is one of the
    five in upper case, its original name is the method, a space and the
    path, its name is the normalized original name behind the configured
    prefix, and its schema is the one derived from an operation declared
    under that path. *)
Theorem listed_descriptor_consistent (env : Env) (env_key : string)
    (tools : list ToolDescriptor) (d : ToolDescriptor) :
  reply (list_functions env env_key) = ToolList tools ->
  In d tools ->
  is_tool_whitelisted env (td_path d) = true /\
  In (td_method d) request_methods /\
  td_original_name d = td_method d +:+ " " +:+ td_path d /\
  td_name d
    = match get_tool_prefix env with
      | Some prefix =>
          if Py.truthy_str prefix
          then prefix +:+ normalize_tool_name env (td_original_name d)
          else normalize_tool_name env (td_original_name d)
      | None => normalize_tool_name env (td_original_name d)
      end /\
  (forall prefix, get_tool_prefix env = Some prefix ->
                  String.prefix prefix (td_name d) = true) /\
  exists spec path_item declared operation,
    fetched env env_key = Some spec /\
    In (td_path d, path_item) (default [] (spec_paths spec)) /\
    In (declared, operation) path_item /\
    td_method d = Py.upper declared /\
    td_description d = function_description operation /\
    td_operationId d = op_operationId operation /\
    td_inputSchema d = derive_input_schema operation.
Proof.
  intros Hreply Hin.
  rewrite list_functions_fetched in Hreply.
  destruct (fetched env env_key) as [spec|] eqn:Hfetched; cbn [reply] in Hreply;
    injection Hreply as <-; [|destruct Hin].
  unfold build_registry in Hin. rewrite fold_register_path in Hin.
  apply in_map_iff in Hin as ([k d'] & Hd & Hin). simpl in Hd. subst d'.
  apply fold_add_entry_elim in Hin as [[] | ([[path declared] op] & He & _ & ->)].
  apply eligible_operations_in in He as (item & Hpath & Hslot & Hsup & Hw).
  unfold entry_descriptor, describe; simpl.
  split; [exact Hw|]. split; [now apply upper_supported|].
  split; [reflexivity|]. split; [reflexivity|]. split.
  - intros prefix Hprefix. unfold tool_name. rewrite Hprefix.
    destruct prefix as [|c prefix]; [now destruct (normalize_tool_name env _)|].
    apply prefix_append.
  - exists spec, item, declared, op. repeat split; auto.
Qed.

Lemma listed_descriptor_consistent_witness :
  let d :=
    describe (sample_env None (Some items_paths)) "/items" "post"
      (plain_operation None) in
  td_original_name d = td_method d +:+ " " +:+ td_path d /\
  In (td_method d) request_methods.
Proof.
  intros d.
  destruct (listed_descriptor_consistent (sample_env None (Some items_paths))
              "OPENAPI_SPEC_URL"
              (map (entry_descriptor (sample_env None (Some items_paths)))
                 (eligible_operations (sample_env None (Some items_paths))
                    items_paths))
              d) as (_ & Hmethod & Horiginal & _).
  - vm_compute. reflexivity.
  - simpl. right. left. reflexivity.
  - split; assumption.
Defined.

(** ** Listing and calling agree when the whitelist lets every path pass *)

Lemma eligible_methods_supported (path_item : PathItem) :
  eligible_methods path_item
    = List.filter (fun slot => method_supported (fst slot)) path_item.
Proof.
  unfold eligible_methods. apply filter_ext. intros [method op]; simpl.
  destruct (method_supported method) eqn:Hsup; [|apply andb_false_r].
  now rewrite (method_supported_truthy _ Hsup).
Qed.

Lemma eligible_all_whitelisted (env : Env) (paths : list (string * PathItem)) :
  (forall path path_item,
      In (path, path_item) paths -> is_tool_whitelisted env path = true) ->
  eligible_operations env paths = supported_operations paths.
Proof.
  induction paths as [|[path item] rest IH]; intros Hall; [reflexivity|].
  unfold eligible_operations, supported_operations in *. simpl.
  rewrite (Hall path item) by now left.
  rewrite eligible_methods_supported. f_equal.
  apply IH. intros p it Hin. apply (Hall p it). now right.
Qed.

Lemma nodup_keys_functional {V : Type} (l : list (string * V)) (k : string)
    (a b : V) :
  List.NoDup (map fst l) -> In (k, a) l -> In (k, b) l -> a = b.
Proof.
  induction l as [|[k' v] l IH]; intros Hnd Ha Hb; [destruct Ha|].
  simpl in Hnd. apply NoDup_cons_iff in Hnd as [Hk Hnd].
  destruct Ha as [Ha|Ha], Hb as [Hb|Hb].
  - congruence.
  - injection Ha as -> ->. destruct Hk. apply in_map_iff. exists (k, b). auto.
  - injection Hb as -> ->. destruct Hk. apply in_map_iff. exists (k, a). auto.
  - now apply IH.
Qed.

(** X14.  When every path of the document passes the whitelist, a listed
    name that is not empty resolves, at dispatch, to the very operation it
    was listed for: same path, same method, same descriptor; the call gets
    past the lookup and the whitelist. *)
Theorem listed_name_resolves_to_listed_operation (env : Env) (env_key : string)
    (spec : Spec) (tools : list ToolDescriptor) (d : ToolDescriptor) :
  fetched env env_key = Some spec ->
  (forall path path_item,
      In (path, path_item) (default [] (spec_paths spec)) ->
      is_tool_whitelisted env path = true) ->
  reply (list_functions env env_key) = ToolList tools ->
  In d tools ->
  td_name d <> "" ->
  exists function_def declared,
    resolve env (td_name d) env_key = Some (spec, function_def) /\
    fd_path function_def = td_path d /\
    fd_method function_def = td_method d /\
    d = describe env (fd_path function_def) declared (fd_operation function_def) /\
    is_tool_whitelisted env (fd_path function_def) = true.
Proof.
  intros Hfetched Hall Hreply Hin Hname.
  rewrite list_functions_fetched, Hfetched in Hreply. cbn [reply] in Hreply.
  injection Hreply as <-.
  unfold build_registry in Hin. rewrite fold_register_path in Hin.
  set (paths := default [] (spec_paths spec)) in *.
  set (registry := fold_left (add_entry env) (eligible_operations env paths) [])
    in *.
  apply in_map_iff in Hin as ([k d'] & Hd & Hin). simpl in Hd. subst d'.
  assert (Hk : exists e, In e (eligible_operations env paths) /\
                         k = entry_name env e /\ d = entry_descriptor env e).
  { apply fold_add_entry_elim in Hin as [[]|H]. exact H. }
  destruct Hk as (e & He & Hke & Hde).
  assert (Hkd : k = td_name d) by (rewrite Hde; exact Hke).
  pose proof (find_function_enumerates env (td_name d) 0 paths) as Henum.
  rewrite <- (eligible_all_whitelisted env paths Hall) in Henum.
  destruct (find_function env (td_name d) 0 paths) as [fd|] eqn:Hfind.
  - destruct Henum as (declared & Hfound & Hmethod).
    pose proof Hfound as Hsplit.
    apply find_split in Hsplit as (pre & post & Hsplit & Hbears & Hpre).
    apply String.eqb_eq in Hbears.
    assert (Hfirst : In (entry_name env (fd_path fd, declared, fd_operation fd),
                         entry_descriptor env (fd_path fd, declared, fd_operation fd))
                       registry).
    { subst registry. rewrite Hsplit. apply fold_add_entry_first; [|intros []].
      intros e' He'. rewrite Hbears. apply String.eqb_neq, Hpre, He'. }
    rewrite Hbears, <- Hkd in Hfirst.
    assert (Hsame : d = entry_descriptor env (fd_path fd, declared, fd_operation fd)).
    { apply (nodup_keys_functional registry k); auto.
      apply fold_add_entry_nodup. constructor. }
    exists fd, declared.
    split; [now apply resolve_intro|].
    split; [now rewrite Hsame|]. split; [now rewrite Hsame, Hmethod|].
    split; [exact Hsame|].
    apply find_some in Hfound as [Hfd _].
    apply eligible_operations_in in Hfd as (item & _ & _ & _ & Hw). exact Hw.
  - rewrite find_none_iff in Henum. specialize (Henum e He).
    apply String.eqb_neq in Henum. destruct Henum. now rewrite <- Hke, Hkd.
Qed.

Lemma listed_name_resolves_to_listed_operation_witness :
  exists function_def,
    resolve (sample_env None (Some colliding_paths)) "get__a_b" "OPENAPI_SPEC_URL"
      = Some ({| spec_paths := Some colliding_paths;
                 spec_servers := ["http://api.test/v1/"] |}, function_def) /\
    fd_path function_def = "/a/b" /\
    fd_method function_def = "GET".
Proof.
  destruct (listed_name_resolves_to_listed_operation
              (sample_env None (Some colliding_paths)) "OPENAPI_SPEC_URL"
              {| spec_paths := Some colliding_paths;
                 spec_servers := ["http://api.test/v1/"] |}
              [describe (sample_env None (Some colliding_paths)) "/a/b" "get"
                 (plain_operation None)]
              (describe (sample_env None (Some colliding_paths)) "/a/b" "get"
                 (plain_operation None)))
    as (fd & declared & Hres & Hpath & Hmethod & _).
  - vm_compute. reflexivity.
  - intros path item _. reflexivity.
  - vm_compute. reflexivity.
  - left. reflexivity.
  - discriminate.
  - exists fd. auto.
Defined.

(** ** The derived schema as a dictionary *)

Lemma dict_set_keys {V : Type} (k : string) (v : V) (d : list (string * V)) :
  map fst (dict_set k v d)
    = if dict_mem k d then map fst d else map fst d ++ [k].
Proof.
  induction d as [|[k' v'] d IH]; simpl; [reflexivity|].
  destruct (String.eqb k' k) eqn:Hk; simpl.
  - apply String.eqb_eq in Hk. now subst k'.
  - rewrite IH. now destruct (dict_mem k d).
Qed.

Lemma dict_set_nodup {V : Type} (k : string) (v : V) (d : list (string * V)) :
  List.NoDup (map fst d) -> List.NoDup (map fst (dict_set k v d)).
Proof.
  intros Hnd. rewrite dict_set_keys.
  destruct (dict_mem k d) eqn:Hmem; [exact Hnd|].
  apply NoDup_snoc; [|exact Hnd].
  intros H. apply dict_mem_keys in H. congruence.
Qed.

Lemma fold_add_param_nodup (params : list ParamDecl) (schema : InputSchema) :
  List.NoDup (map fst (properties schema)) ->
  List.NoDup (map fst (properties (fold_left add_param params schema))).
Proof.
  revert schema. induction params as [|param params IH]; intros schema Hnd;
    simpl; [exact Hnd|].
  apply IH. unfold add_param; simpl. now apply dict_set_nodup.
Qed.

(** X15.  The derived schema is a well-formed dictionary: no name is a
    key of the properties twice, every required name is a key of the
    properties, and the required list has the names of the declarations
    whose required flag is true, in declaration order, once for each such
    declaration (so twice for a name that is declared required twice). *)
Theorem input_schema_well_formed (operation : Operation) :
  let params := default [] (op_parameters operation) in
  let schema := derive_input_schema operation in
  List.NoDup (map fst (properties schema)) /\
  (forall n, In n (required schema) -> dict_mem n (properties schema) = true) /\
  required schema = map p_name (List.filter param_required params).
Proof.
  intros params schema. subst schema. unfold derive_input_schema. fold params.
  split; [apply fold_add_param_nodup; constructor|].
  split; [|now rewrite fold_add_param_required].
  intros n. rewrite fold_add_param_required; simpl.
  intros (param & Hname & Hin)%in_map_iff.
  apply filter_In in Hin as [Hin _].
  rewrite dict_mem_get, fold_add_param_properties.
  destruct (find (fun q => String.eqb (p_name q) n) (rev params)) as [q|] eqn:Hfind;
    [eauto|].
  rewrite find_none_iff in Hfind.
  specialize (Hfind param (proj1 (in_rev _ _) Hin)).
  apply String.eqb_neq in Hfind. contradiction.
Qed.

(** ** Starting the server *)

(** X16.  [run_simple_server] calls [mcp.run] only behind a preflight:
    without a document for [OPENAPI_SPEC_URL] (no location, an empty one, or
    a failed fetch) it exits with status 1 before listing anything; with a
    document it preloads by one call of [list_functions] on that document,
    then calls [mcp.run], and exits with status 1 exactly when [mcp.run]
    raises. *)
Theorem run_simple_server_preflight (env : Env) (mcp_run : option string) :
  let start := run_simple_server env mcp_run in
  (fetched env "OPENAPI_SPEC_URL" = None ->
   start = mkStartup (Exited 1) None false) /\
  (forall spec,
      fetched env "OPENAPI_SPEC_URL" = Some spec ->
      transport_run start = true /\
      preloaded start = Some (list_functions env "OPENAPI_SPEC_URL") /\
      document (list_functions env "OPENAPI_SPEC_URL") = Some spec /\
      (ending start = Returned <-> mcp_run = None) /\
      (ending start = Exited 1 <-> mcp_run <> None)).
Proof.
  cbv zeta. unfold run_simple_server, fetched, spec_location.
  destruct (environ env !! "OPENAPI_SPEC_URL") as [url|] eqn:Hloc.
  - destruct (Py.truthy_str url) eqn:Hurl; cbn [negb].
    + destruct (fetch_openapi_spec env url) as [doc|] eqn:Hfetch.
      * split; [discriminate|]. intros spec [= <-].
        assert (Hdoc : document (list_functions env "OPENAPI_SPEC_URL") = Some doc).
        { rewrite list_functions_fetched. unfold fetched, spec_location.
          rewrite Hloc, Hurl; cbn [negb]. now rewrite Hfetch. }
        destruct mcp_run as [failure|]; cbn [transport_run preloaded ending];
          repeat split; auto; try discriminate; congruence.
      * split; [reflexivity | discriminate].
    + split; [reflexivity | discriminate].
  - split; [reflexivity | discriminate].
Qed.

Lemma run_simple_server_preflight_witness :
  run_simple_server
    {| environ := {[ "MY_SPEC" := "http://spec.test/openapi.json" ]};
       fetch_openapi_spec := fun _ =>
         Some {| spec_paths := Some items_paths; spec_servers := [] |};
       get_tool_prefix := None;
       normalize_tool_name := sample_normalize;
       is_tool_whitelisted := fun _ => true;
       handle_auth := fun _ => [];
       strip_param := None;
       build_base_url := fun spec => head (spec_servers spec);
       http := fun _ => inl "" |}
    None
    = mkStartup (Exited 1) None false.
Proof.
  apply run_simple_server_preflight. vm_compute. reflexivity.
Defined.

(** ** The names of the listing *)

(** X17.  No name is lost in the listing: the listed names are exactly
    the names of the enumerated operations (whitelisted path, supported
    method). *)
Theorem listed_names_complete (env : Env) (env_key : string) (spec : Spec)
    (tools : list ToolDescriptor) :
  fetched env env_key = Some spec ->
  reply (list_functions env env_key) = ToolList tools ->
  forall n,
    In n (map td_name tools) <->
    In n (map (entry_name env)
            (eligible_operations env (default [] (spec_paths spec)))).
Proof.
  intros Hfetched Hreply n.
  rewrite list_functions_fetched, Hfetched in Hreply. cbn [reply] in Hreply.
  injection Hreply as <-.
  unfold build_registry. rewrite fold_register_path.
  set (entries := eligible_operations env (default [] (spec_paths spec))).
  rewrite map_map. split.
  - intros ([k d] & Hn & Hin)%in_map_iff. simpl in Hn.
    apply fold_add_entry_elim in Hin as [[] | (e & He & _ & ->)].
    subst n. apply in_map_iff. exists e. split; [reflexivity | exact He].
  - intros (e & Hn & He)%in_map_iff.
    destruct (find (fun e' => String.eqb (entry_name env e') n) entries)
      as [e0|] eqn:Hfind.
    + apply find_split in Hfind as (pre & post & Hsplit & Hbears & Hpre).
      apply String.eqb_eq in Hbears.
      apply in_map_iff. exists (entry_name env e0, entry_descriptor env e0).
      split; [exact Hbears|].
      rewrite Hsplit. apply fold_add_entry_first; [|intros []].
      intros e' He'. rewrite Hbears. apply String.eqb_neq, Hpre, He'.
    + rewrite find_none_iff in Hfind. specialize (Hfind e He).
      apply String.eqb_neq in Hfind. contradiction.
Qed.

Lemma listed_names_complete_witness :
  In "post__items"
    (map td_name
       (map (entry_descriptor (sample_env None (Some items_paths)))
          (eligible_operations (sample_env None (Some items_paths)) items_paths))).
Proof.
  apply (listed_names_complete (sample_env None (Some items_paths))
           "OPENAPI_SPEC_URL"
           {| spec_paths := Some items_paths;
              spec_servers := ["http://api.test/v1/"] |}).
  - vm_compute. reflexivity.
  - vm_compute. reflexivity.
  - vm_compute. tauto.
Defined.

(** ** The written method and the listing *)

Lemma fold_left_alter_same {A B : Type} (f : B -> A -> B) (g : A -> A)
    (l : list A) (i : nat) (b : B) :
  (forall b x, f b (g x) = f b x) ->
  fold_left f (alter g i l) b = fold_left f l b.
Proof.
  intros Hfg. revert i b.
  induction l as [|a l IH]; intros [|i] b; try reflexivity.
  - cbn. now rewrite Hfg.
  - cbn. apply IH.
Qed.

Lemma describe_set_method (env : Env) (path method written : string)
    (operation : Operation) :
  describe env path method (set_method written operation)
    = describe env path method operation.
Proof. reflexivity. Qed.

Lemma register_path_store (env : Env) (written : string) (j : nat)
    (functions : list (string * ToolDescriptor)) (entry : string * PathItem) :
  register_path env functions
    (fst entry,
     alter (fun slot : string * Operation =>
              (fst slot, set_method written (snd slot))) j (snd entry))
    = register_path env functions entry.
Proof.
  destruct entry as [path item]. unfold register_path; simpl.
  rewrite fold_left_alter_same by (intros fs [m op]; reflexivity).
  destruct item as [|slot item]; [reflexivity|]. now destruct j.
Qed.

(** X18.  What [call_function] writes into the document does not show in
    the listing: when the Spec Accessor hands back the document with the
    method written into any of its operation objects, [list_functions]
    returns the same tools. *)
Theorem written_method_not_listed (env : Env) (env_key : string)
    (ref : nat * nat) (method : string) :
  reply (list_functions (refetching env (store_method ref method)) env_key)
    = reply (list_functions env env_key).
Proof.
  rewrite !list_functions_fetched.
  unfold fetched, spec_location; simpl.
  destruct (match environ env !! env_key with
            | Some url => Some url
            | None => environ env !! "OPENAPI_SPEC_URL"
            end) as [url|]; [|reflexivity].
  destruct (Py.truthy_str url); cbn [negb]; [|reflexivity].
  destruct (fetch_openapi_spec env url) as [spec|]; [|reflexivity].
  cbn [fmap option_fmap option_map reply]. f_equal. f_equal.
  unfold build_registry, store_method; simpl.
  destruct (spec_paths spec) as [paths|]; [|reflexivity].
  cbn [option_map default from_option id].
  apply fold_left_alter_same. intros fs entry.
  apply (register_path_store (refetching env (store_method ref method))).
Qed.
